(** * DTN symbol downloader: a shallow embedding and its properties

    The development follows [dtn_symbol_downloader.py] and
    [process_symbols.py].  Python values are modelled as follows.

    - A symbol record (a decoded JSON object, a Python [dict]) is a finite
      map from column names to cell values; a missing key is what pandas
      shows as NaN.
    - A [DataFrame] is its set of columns and its list of rows.
    - The output directory is a [Disk]: batch files keyed by batch number,
      the state file, the merged file and the files of the split tree keyed
      by (exchange, security type).  A CSV file is named by the frame that
      [to_csv] wrote into it.
    - [pd.read_csv] is an oracle [read_csv]: for a file, the frame pandas
      parses from it, with the cell types and the missing values it infers,
      or the exception it raises.  Nothing is assumed of it; a statement
      that needs a file to read back as it was written says so.
    - A value of the column 'exchange' or 'securityType' that cannot serve
      as the name of one directory or of one file is handed to an oracle
      for what [os.makedirs] and [to_csv] make of it inside by_exchange.
    - The HTTP session is an oracle [transport]: the n-th GET of the run,
      issued with a given cursor, either returns a response or raises.
    - Effects (disk, clock, log, request counter) are threaded through a
      state-and-exception monad [M]; a Python exception is a value of
      [exn]. *)

From Stdlib Require Import ZArith String List Lia Bool.
From stdpp Require Import gmap strings list sorting.

Local Open Scope string_scope.
Local Open Scope Z_scope.
Local Open Scope list_scope.

(** ** Exceptions *)

Inductive exn :=
| RequestTimeout                   (* requests.exceptions.Timeout *)
| ConnectionError (msg : string)   (* requests.exceptions.ConnectionError *)
| ValueError (msg : string)        (* bad JSON, negative sleep *)
| KeyError (key : string)
| UnboundLocalError (name : string)
| OSError (msg : string)           (* os.makedirs, open *)
| OtherException (msg : string)    (* any other subclass of Exception *)
| KeyboardInterrupt                (* BaseException, not Exception *)
| SystemExit.                      (* BaseException, not Exception *)

(** [isinstance(e, Exception)] *)
Definition is_Exception (e : exn) : bool :=
  match e with
  | KeyboardInterrupt | SystemExit => false
  | _ => true
  end.

Inductive Outcome (A : Type) :=
| Ret (a : A)
| Raise (e : exn).
Arguments Ret {A} a.
Arguments Raise {A} e.

(** ** Data *)

(** One symbol as the backend sends it. *)
Abbreviation SymbolRec := (gmap string string).

Record Page := {
  symbolList : list SymbolRec;   (* result.get('symbolList', []) *)
  totalFound : Z;                (* result.get('totalFound', 0) *)
  hasMore : bool;                (* result.get('hasMore', False) *)
  nextKey : option string        (* result.get('nextKey', None) *)
}.

(** The decoded body of a response: which of the keys ['data'] and
    ['errors'] it has. *)
Record JsonBody := {
  body_data : option Page;
  body_errors : option (list string)
}.

Record Response := {
  status_code : Z;
  text : string;
  json : option JsonBody         (* None: response.json() raises *)
}.

(** What [last_error] can hold. *)
Inductive ErrorDesc :=
| ApiError (error_msg : string)
| UnexpectedStructure
| HttpError (status : Z) (text200 : string)
| TimedOut
| ConnectionErr (e : string)
| UnexpectedErr (e : exn).

Record DataFrame := {
  columns : gset string;
  rows : list SymbolRec
}.

(** [download_state.json] *)
Record DownloadState := {
  st_batch : Z;
  st_next_key : option string;
  st_total_symbols : Z;
  st_total_reported : Z
}.

Inductive StateFile :=
| Unreadable                        (* json.load or state.get raises *)
| Readable (st : DownloadState).

Record Disk := {
  batch_files : gmap Z DataFrame;                 (* batch_<n>.csv *)
  state_file : option StateFile;                  (* download_state.json *)
  latest_file : option DataFrame;                 (* all_symbols_latest.csv *)
  split_files : gmap (string * string) DataFrame  (* by_exchange/<e>/<t>.csv *)
}.

Inductive LogEvent :=
| AllRetriesFailed (last_error : option ErrorDesc)
| TooManyConsecutiveErrors (n : Z)
| ResumeLaterHint
| SafetyLimitReached
| NoDataCollected
| SplitSkipped
| DownloadComplete
| DownloadFailedOrIncomplete
| CanResumeFrom (batch : Z)
| InterruptedByUser
| UnexpectedError (e : exn)
| BatchFilesCleanedUp.

Record World := {
  disk : Disk;
  requests : nat;        (* GETs issued so far *)
  slept : list Z;        (* arguments of time.sleep, oldest first *)
  log : list LogEvent    (* oldest first *)
}.

Definition set_disk (d : Disk) (w : World) : World :=
  {| disk := d; requests := requests w; slept := slept w; log := log w |}.

(** ** The monad *)

Definition M (A : Type) : Type := World -> Outcome A * World.

Definition ret {A} (a : A) : M A := fun w => (Ret a, w).
Definition raise {A} (e : exn) : M A := fun w => (Raise e, w).
Definition bind {A B} (m : M A) (k : A -> M B) : M B :=
  fun w => match m w with
           | (Ret a, w') => k a w'
           | (Raise e, w') => (Raise e, w')
           end.

(** [try: m  except ... : h e] where [h] decides itself whether the
    exception matches one of its clauses. *)
Definition try_except {A} (m : M A) (h : exn -> M A) : M A :=
  fun w => match m w with
           | (Ret a, w') => (Ret a, w')
           | (Raise e, w') => h e w'
           end.

Notation "'let*' x ':=' m 'in' k" := (bind m (fun x => k))
  (at level 10, x name, m at level 100, k at level 200).
Notation "m ';;;' k" := (bind m (fun _ => k))
  (at level 100, k at level 200, right associativity).

(** [time.sleep(d)]: a negative argument raises ValueError. *)
Definition sleep (d : Z) : M unit :=
  fun w => if d <? 0 then (Raise (ValueError "sleep length must be non-negative"), w)
           else (Ret tt, {| disk := disk w; requests := requests w;
                            slept := slept w ++ [d]; log := log w |}).

Definition logger (ev : LogEvent) : M unit :=
  fun w => (Ret tt, {| disk := disk w; requests := requests w;
                       slept := slept w; log := log w ++ [ev] |}).

(** A library call that returns or raises, and leaves the world alone. *)
Definition lift {A} (o : Outcome A) : M A := fun w => (o, w).

Definition get_disk : M Disk := fun w => (Ret (disk w), w).
Definition put_disk (d : Disk) : M unit := fun w => (Ret tt, set_disk d w).

(** [needle in hay] on strings *)
Fixpoint contains (needle hay : string) : bool :=
  String.prefix needle hay ||
  match hay with
  | EmptyString => false
  | String _ hay' => contains needle hay'
  end.

(** The order in which pandas sorts string group keys. *)
Definition string_le (a b : string) : Prop := String.leb a b = true.

#[global] Instance string_le_dec : RelDecision string_le :=
  fun a b => decide (String.leb a b = true).

(** ** File names *)

(** The character NUL, which no path can hold. *)
Definition NUL : string := String Ascii.zero EmptyString.

(** [os.path.join(split_output_dir, exchange)] names one directory right
    inside by_exchange, and another one for another name: the name is not
    empty, not '.' or '..', has no separator and no NUL, and is no longer
    than a file name can be. *)
Definition plain_dir (exchange : string) : bool :=
  negb (String.eqb exchange "") && negb (String.eqb exchange ".")
  && negb (String.eqb exchange "..")
  && negb (contains "/" exchange) && negb (contains NUL exchange)
  && (String.length exchange <=? 255)%nat.

(** [f"{sec_type}.csv"] names one file right inside that directory. *)
Definition plain_file (sec_type : string) : bool :=
  negb (contains "/" sec_type) && negb (contains NUL sec_type)
  && (String.length sec_type <=? 251)%nat.

(** The characters that make [glob] read a path as a pattern. *)
Definition glob_magic (path : string) : bool :=
  contains "*" path || contains "?" path || contains "[" path.

(** [glob] does not list under '*.csv' a file whose name starts with a
    dot. *)
Definition hidden (sec_type : string) : bool :=
  String.prefix "." (sec_type ++ ".csv").

Section Downloader.

(** The n-th GET on the search URL, with the [nextKey] it carries. *)
Variable transport : nat -> option string -> Outcome Response.

(** [pd.read_csv(batch_file)] on the file that holds a frame: the frame
    pandas parses, or the exception it raises. *)
Variable read_csv : DataFrame -> Outcome DataFrame.

(** What [os.makedirs] and the [to_csv] calls for the groups of an exchange
    make of the tree by_exchange when the exchange is no [plain_dir], and
    what [to_csv] makes of it when the security type is no [plain_file];
    [None] when the operating system refuses. *)
Variable odd_dir :
  string -> DataFrame -> gmap (string * string) DataFrame
  -> option (gmap (string * string) DataFrame).
Variable odd_file :
  string -> string -> DataFrame -> gmap (string * string) DataFrame
  -> option (gmap (string * string) DataFrame).

(** [self.session.get(self.search_url, params=params, timeout=60)] *)
Definition session_get (next_key : option string) : M Response :=
  fun w => (transport (requests w) next_key,
            {| disk := disk w; requests := S (requests w);
               slept := slept w; log := log w |}).

(** [response.json()] *)
Definition response_json (r : Response) : M JsonBody :=
  match json r with
  | Some b => ret b
  | None => raise (ValueError "Expecting value")
  end.

(** ** search_symbols *)

(** How one pass through the body of the [for attempt] loop ends:
    [return data['data']], or on to the next attempt ([continue] and falling
    off the end of the body are the same) with the current [last_error]. *)
Inductive Flow :=
| Return_ (d : Page)
| NextAttempt (last_error : option ErrorDesc).

(** The [try] block, lines 84-115. *)
Definition attempt_try (next_key : option string)
    (retry_count retry_delay attempt : Z) (last_error : option ErrorDesc) : M Flow :=
  let* response := session_get next_key in
  if status_code response =? 200 then
    let* data := response_json response in
    match body_data data with
    | Some d => ret (Return_ d)
    | None =>
      match body_errors data with
      | Some errs =>
        let error_msg := match errs with e :: _ => e | [] => "Unknown error" end in
        if contains "backend search database" error_msg then
          if attempt <? retry_count - 1 then
            sleep (retry_delay * (attempt + 2));;;
            ret (NextAttempt last_error)
          else ret (NextAttempt (Some (ApiError error_msg)))
        else ret (NextAttempt (Some (ApiError error_msg)))
      | None => ret (NextAttempt (Some UnexpectedStructure))
      end
    end
  else
    let last_error :=
      Some (HttpError (status_code response) (String.substring 0 200 (text response))) in
    if (500 <=? status_code response) && (attempt <? retry_count - 1) then
      sleep (retry_delay * (attempt + 1));;;
      ret (NextAttempt last_error)
    else ret (NextAttempt last_error).

(** The [except] clauses, lines 117-136, tried in order. *)
Definition attempt_except (retry_count retry_delay attempt : Z) (e : exn) : M Flow :=
  match e with
  | RequestTimeout =>
    (if attempt <? retry_count - 1 then sleep retry_delay else ret tt);;;
    ret (NextAttempt (Some TimedOut))
  | ConnectionError msg =>
    (if attempt <? retry_count - 1 then sleep (retry_delay * (attempt + 1)) else ret tt);;;
    ret (NextAttempt (Some (ConnectionErr msg)))
  | _ =>
    if is_Exception e then
      (if attempt <? retry_count - 1 then sleep retry_delay else ret tt);;;
      ret (NextAttempt (Some (UnexpectedErr e)))
    else raise e
  end.

(** [for attempt in range(retry_count)], with [n] passes left. *)
Fixpoint attempts (n : nat) (next_key : option string)
    (retry_count retry_delay attempt : Z) (last_error : option ErrorDesc)
    : M (option Page) :=
  match n with
  | O =>
    logger (AllRetriesFailed last_error);;;
    ret None
  | S n' =>
    let* f := try_except (attempt_try next_key retry_count retry_delay attempt last_error)
                         (attempt_except retry_count retry_delay attempt) in
    match f with
    | Return_ d => ret (Some d)
    | NextAttempt le => attempts n' next_key retry_count retry_delay (attempt + 1) le
    end
  end.

Definition search_symbols (next_key : option string) (retry_count retry_delay : Z)
    : M (option Page) :=
  attempts (Z.to_nat retry_count) next_key retry_count retry_delay 0 None.

(** ** DataFrames *)

(** [pd.DataFrame(symbols)] *)
Definition DataFrame_of (symbols : list SymbolRec) : DataFrame :=
  {| columns := ⋃ (dom <$> symbols); rows := symbols |}.

(** [len(df)] *)
Definition len (df : DataFrame) : Z := Z.of_nat (length (rows df)).

(** The frame [pd.concat] builds of one frame or more: the union of the
    columns, the rows one frame after the other. *)
Definition concat_frames (dfs : list DataFrame) : DataFrame :=
  {| columns := ⋃ (columns <$> dfs); rows := mjoin (rows <$> dfs) |}.

(** [pd.concat(dfs, ignore_index=True)]; ValueError for no frame at all. *)
Definition pd_concat (dfs : list DataFrame) : M DataFrame :=
  match dfs with
  | [] => raise (ValueError "No objects to concatenate")
  | _ :: _ => ret (concat_frames dfs)
  end.

(** The rows kept by [drop_duplicates(subset=[col])]: a row is dropped when
    its cell in [col] was [seen] in an earlier row (keep='first'; two
    missing cells count as equal). *)
Fixpoint drop_dups (col : string) (seen : list (option string))
    (rs : list SymbolRec) : list SymbolRec :=
  match rs with
  | [] => []
  | r :: rs' =>
    if bool_decide (r !! col ∈ seen) then drop_dups col seen rs'
    else r :: drop_dups col ((r !! col) :: seen) rs'
  end.

(** [df.drop_duplicates(subset=[col])]; KeyError when the column is absent. *)
Definition drop_duplicates (col : string) (df : DataFrame) : M DataFrame :=
  if bool_decide (col ∈ columns df) then
    ret {| columns := columns df; rows := drop_dups col [] (rows df) |}
  else raise (KeyError col).

(** ** download_all_symbols *)

(** The local variables of [download_all_symbols] that live across
    iterations of the [while True] loop. *)
Record Loop := {
  all_dataframes : list DataFrame;
  batch : Z;
  next_key : option string;
  total_symbols : Z;
  total_reported : Z;
  consecutive_errors : Z
}.

Definition max_consecutive_errors : Z := 3.

(** Which [break] left the loop. *)
Inductive Stop :=
| Aborted          (* line 219: too many consecutive errors *)
| EndOfData        (* line 241: empty symbol list *)
| NoMoreSymbols    (* line 285: not has_more or next_key is None *)
| SafetyLimit.     (* line 292: batch > 1000 *)

(** [save_symbols_batch] *)
Definition save_symbols_batch (symbols : list SymbolRec) (batch_number : Z) : M DataFrame :=
  let df := DataFrame_of symbols in
  let* d := get_disk in
  put_disk {| batch_files := <[batch_number := df]> (batch_files d);
              state_file := state_file d;
              latest_file := latest_file d;
              split_files := split_files d |};;;
  ret df.

(** [json.dump(state, f)] on [download_state.json] *)
Definition write_state (st : DownloadState) : M unit :=
  let* d := get_disk in
  put_disk {| batch_files := batch_files d;
              state_file := Some (Readable st);
              latest_file := latest_file d;
              split_files := split_files d |}.

(** Lines 167-173, the loop over the batch numbers in [range]: each batch
    file that exists is read back; [acc] is [all_dataframes] and
    [total_symbols].  An exception of [pd.read_csv] leaves the loop. *)
Fixpoint load_previous (range : list Z) (acc : list DataFrame * Z)
    : M (list DataFrame * Z) :=
  match range with
  | [] => ret acc
  | i :: range' =>
    let* d := get_disk in
    match batch_files d !! i with
    | Some batch_file =>
      let* df := lift (read_csv batch_file) in
      load_previous range' ((fst acc ++ [df])%list, snd acc + len df)
    | None => load_previous range' acc
    end
  end.

(** Lines 154-185. *)
Definition init_loop (resume_from_batch : option Z) : M Loop :=
  let batch0 :=
    match resume_from_batch with
    | Some r => if r =? 0 then 1 else r
    | None => 1
    end in
  match resume_from_batch with
  | Some r =>
    if 1 <? r then
      let* loaded := load_previous (seqZ 1 (r - 1)) ([], 0) in
      let* d := get_disk in
      let restored :=
        match state_file d with
        | Some (Readable st) => (st_next_key st, st_total_reported st)
        | Some Unreadable => (None, 0)
        | None => (None, 0)
        end in
      ret {| all_dataframes := loaded.1; batch := batch0; next_key := restored.1;
             total_symbols := loaded.2; total_reported := restored.2;
             consecutive_errors := 0 |}
    else
      ret {| all_dataframes := []; batch := batch0; next_key := None;
             total_symbols := 0; total_reported := 0; consecutive_errors := 0 |}
  | None =>
    ret {| all_dataframes := []; batch := batch0; next_key := None;
           total_symbols := 0; total_reported := 0; consecutive_errors := 0 |}
  end.

(** One pass through the body of [while True], lines 202-292.  The second
    component is [Some] when the pass ends in a [break]. *)
Definition iteration (delay : Z) (s : Loop) : M (Loop * option Stop) :=
  (if 1 <? batch s then sleep delay else ret tt);;;
  let* result := search_symbols (next_key s) 3 5 in
  match result with
  | None =>
    let errs := consecutive_errors s + 1 in
    let s' := {| all_dataframes := all_dataframes s; batch := batch s;
                 next_key := next_key s; total_symbols := total_symbols s;
                 total_reported := total_reported s; consecutive_errors := errs |} in
    if max_consecutive_errors <=? errs then
      logger (TooManyConsecutiveErrors errs);;;
      logger ResumeLaterHint;;;
      ret (s', Some Aborted)
    else
      sleep (30 * errs);;;
      ret (s', None)
  | Some result =>
    let symbol_list := symbolList result in
    let total_found := totalFound result in
    let reported :=
      if (batch s =? 1) && (0 <? total_found) then total_found else total_reported s in
    match symbol_list with
    | [] =>
      ret ({| all_dataframes := all_dataframes s; batch := batch s;
              next_key := next_key s; total_symbols := total_symbols s;
              total_reported := reported; consecutive_errors := 0 |}, Some EndOfData)
    | _ :: _ =>
      let* df := save_symbols_batch symbol_list (batch s) in
      let total := total_symbols s + Z.of_nat (length symbol_list) in
      let has_more := hasMore result in
      let key := nextKey result in
      write_state {| st_batch := batch s + 1; st_next_key := key;
                     st_total_symbols := total; st_total_reported := reported |};;;
      if negb has_more || negb (bool_decide (is_Some key)) then
        ret ({| all_dataframes := all_dataframes s ++ [df]; batch := batch s;
                next_key := key; total_symbols := total;
                total_reported := reported; consecutive_errors := 0 |}, Some NoMoreSymbols)
      else
        let s' := {| all_dataframes := all_dataframes s ++ [df]; batch := batch s + 1;
                     next_key := key; total_symbols := total;
                     total_reported := reported; consecutive_errors := 0 |} in
        if 1000 <? batch s' then
          logger SafetyLimitReached;;;
          ret (s', Some SafetyLimit)
        else ret (s', None)
    end
  end.

(** [while True] run for at most [fuel] passes; the second component is
    [None] when the loop is still running after them. *)
Fixpoint while_true (fuel : nat) (delay : Z) (s : Loop) : M (Loop * option Stop) :=
  match fuel with
  | O => ret (s, None)
  | S fuel' =>
    let* r := iteration delay s in
    match r.2 with
    | Some stop => ret r
    | None => while_true fuel' delay r.1
    end
  end.

(** A number of passes after which the loop has always stopped
    (see [while_true_stops]). *)
Definition loop_bound (s : Loop) : nat :=
  (3 * Z.to_nat (1001 - batch s) + 3)%nat.

(** Lines 309-347: combine, drop duplicates, write the merged file, remove
    the state file. *)
Definition combine_results (dfs : list DataFrame) : M (option DataFrame) :=
  match dfs with
  | [] =>
    logger NoDataCollected;;;
    ret None
  | _ :: _ =>
    let* combined_df := pd_concat dfs in
    let* combined_df := drop_duplicates "symbol" combined_df in
    let* d := get_disk in
    put_disk {| batch_files := batch_files d;
                state_file := state_file d;
                latest_file := Some combined_df;
                split_files := split_files d |};;;
    let* d := get_disk in
    put_disk {| batch_files := batch_files d;
                state_file := None;
                latest_file := latest_file d;
                split_files := split_files d |};;;
    ret (Some combined_df)
  end.

(** The call of [get_categories] for batch 1 (lines 192-199) only logs and
    goes to another URL; it is left out. *)
Definition download_all_symbols (delay : Z) (resume_from_batch : option Z)
    : M (option DataFrame) :=
  let* s0 := init_loop resume_from_batch in
  let* r := while_true (loop_bound s0) delay s0 in
  combine_results (all_dataframes r.1).

(** ** Splitting by exchange and security type *)

(** [for x in l: body x] *)
Fixpoint for_each {A} (l : list A) (body : A -> M unit) : M unit :=
  match l with
  | [] => ret tt
  | x :: l' => body x;;; for_each l' body
  end.

(** [df.groupby(col)]: one group per value of the column, in sorted order
    of the values (sort=True); rows whose cell is missing are in no group
    (dropna=True). *)
Definition groupby (col : string) (df : DataFrame) : list (string * DataFrame) :=
  let keys := merge_sort string_le
                (remove_dups (omap (fun r : SymbolRec => r !! col) (rows df))) in
  (fun k => (k, {| columns := columns df;
                   rows := filter (fun r : SymbolRec => r !! col = Some k) (rows df) |}))
    <$> keys.

(** A step of the operating system inside the tree by_exchange; OSError
    when it refuses. *)
Definition tree_step
    (step : gmap (string * string) DataFrame -> option (gmap (string * string) DataFrame))
    : M unit :=
  let* d := get_disk in
  match step (split_files d) with
  | Some tree =>
    put_disk {| batch_files := batch_files d;
                state_file := state_file d;
                latest_file := latest_file d;
                split_files := tree |}
  | None => raise (OSError "by_exchange")
  end.

(** [type_group.to_csv(file_path)] with
    file_path = by_exchange/<exchange>/<sec_type>.csv, in the directory of
    a [plain_dir] exchange. *)
Definition write_split (exchange sec_type : string) (df : DataFrame) : M unit :=
  if plain_file sec_type then
    let* d := get_disk in
    put_disk {| batch_files := batch_files d;
                state_file := state_file d;
                latest_file := latest_file d;
                split_files := <[(exchange, sec_type) := df]> (split_files d) |}
  else tree_step (odd_file exchange sec_type df).

Definition split_symbols_by_exchange_and_type (dataframe : option DataFrame) : M unit :=
  match dataframe with
  | None => logger SplitSkipped
  | Some df =>
    if negb (bool_decide ("exchange" ∈ columns df))
       || negb (bool_decide ("securityType" ∈ columns df))
    then logger SplitSkipped
    else
      for_each (groupby "exchange" df) (fun eg =>
        if plain_dir (fst eg) then
          for_each (groupby "securityType" (snd eg)) (fun tg =>
            write_split (fst eg) (fst tg) (snd tg))
        else tree_step (odd_dir (fst eg) (snd eg)))
  end.

(** [cleanup_batch_files]: every batch_*.csv of the output directory goes. *)
Definition cleanup_batch_files : M unit :=
  let* d := get_disk in
  put_disk {| batch_files := ∅;
              state_file := state_file d;
              latest_file := latest_file d;
              split_files := split_files d |}.

(** ** main *)

(** [try: m finally: fin]: an exception of [fin] replaces the outcome of
    [m]. *)
Definition try_finally {A} (m : M A) (fin : M unit) : M A :=
  fun w => match m w with
           | (o, w') =>
             match fin w' with
             | (Ret _, w'') => (o, w'')
             | (Raise e, w'') => (Raise e, w'')
             end
           end.

(** Lines 481-490 and 499-508: tell from which batch to resume, if the
    state file can be read. *)
Definition print_resume_hint : M unit :=
  let* d := get_disk in
  match state_file d with
  | Some (Readable st) => logger (CanResumeFrom (st_batch st))
  | Some Unreadable => ret tt
  | None => ret tt
  end.

(** Lines 399-490, once [result_df] is bound.  The statistics that are only
    printed are left out. *)
Definition main_report (result_df : option DataFrame) : M unit :=
  match result_df with
  | Some df =>
    logger DownloadComplete;;;
    split_symbols_by_exchange_and_type (Some df)
  | None =>
    logger DownloadFailedOrIncomplete;;;
    print_resume_hint
  end.

(** The [except] clauses of [main], lines 492-516. *)
Definition main_except (e : exn) : M unit :=
  match e with
  | KeyboardInterrupt =>
    logger InterruptedByUser;;;
    print_resume_hint
  | _ =>
    if is_Exception e then logger (UnexpectedError e) else raise e
  end.

(** The [finally] clause, lines 517-521.  [result_df] is [None] when the
    local variable was never assigned. *)
Definition main_finally (result_df : option (option DataFrame)) : M unit :=
  match result_df with
  | None => raise (UnboundLocalError "result_df")
  | Some None => ret tt
  | Some (Some df) =>
    if 0 <? len df then
      cleanup_batch_files;;;
      logger BatchFilesCleanedUp
    else ret tt
  end.

(** [main] with [args.resume] and [args.delay]. *)
Definition main (resume : option Z) (delay : Z) : M unit :=
  fun w =>
    match download_all_symbols delay resume w with
    | (Ret result_df, w1) =>
      try_finally (try_except (main_report result_df) main_except)
                  (main_finally (Some result_df)) w1
    | (Raise e, w1) =>
      try_finally (main_except e) (main_finally None) w1
    end.

End Downloader.

(** ** The consumer, process_symbols.py *)

Section Consumer.

(** [pd.read_csv(csv_file)], line 83, on the file that holds a frame: the
    frame pandas parses, or [None] when the read raises, which the
    [except Exception] of line 104 turns into a message. *)
Variable read_csv : DataFrame -> option DataFrame.

(** What [glob] lists for a target name that is no [plain_dir] or that it
    reads as a pattern. *)
Variable odd_glob : string -> list DataFrame.

(** Lines 81-105 for one CSV file of the directory of [exchange_name];
    [redis] maps (exchange, security type), the two variable parts of the
    key 'symbols:<exchange>:<type>', to the stored records, and
    [redis_client.set] is taken to succeed. *)
Definition process_csv (exchange_name : string) (csv_file : DataFrame)
    (redis : gmap (string * string) (list SymbolRec))
    : gmap (string * string) (list SymbolRec) :=
  match read_csv csv_file with
  | None => redis
  | Some df =>
    if negb (bool_decide ("symbol" ∈ columns df))
       || negb (bool_decide ("exchange" ∈ columns df))
       || negb (bool_decide ("securityType" ∈ columns df))
    then redis
    else
      let df_filtered :=
        {| columns := columns df;
           rows := filter (fun r : SymbolRec => r !! "exchange" = Some exchange_name)
                     (rows df) |} in
      match rows df_filtered with
      | [] => redis
      | _ :: _ =>
        foldl (fun (acc : gmap (string * string) (list SymbolRec)) (g : string * DataFrame) =>
                 <[(exchange_name, fst g) := rows (snd g)]> acc)
              redis (groupby "securityType" df_filtered)
      end
  end.

(** The files by_exchange/<exchange_name>/*.csv, as [glob] lists them. *)
Definition csv_files (tree : gmap (string * string) DataFrame) (exchange_name : string)
    : list DataFrame :=
  if plain_dir exchange_name && negb (glob_magic exchange_name) then
    snd <$> filter (fun kv : (string * string) * DataFrame =>
                      fst (fst kv) = exchange_name /\ hidden (snd (fst kv)) = false)
                   (map_to_list tree)
  else odd_glob exchange_name.

Definition process_and_store_symbols (tree : gmap (string * string) DataFrame)
    (redis : gmap (string * string) (list SymbolRec)) (target_exchanges : list string)
    : gmap (string * string) (list SymbolRec) :=
  foldl (fun (acc : gmap (string * string) (list SymbolRec)) (exchange_name : string) =>
           foldl (fun acc' df => process_csv exchange_name df acc')
                 acc (csv_files tree exchange_name))
        redis target_exchanges.

End Consumer.

(** * Notions used in the statements *)

(** ** Attempts and fetches *)

(** The page an attempt delivers, if it does. *)
Definition page_of (o : Outcome Response) : option Page :=
  match o with
  | Ret r =>
    if status_code r =? 200 then
      match json r with
      | Some b => body_data b
      | None => None
      end
    else None
  | Raise _ => None
  end.

(** The error description a failed attempt leaves in [last_error] when it
    is the last of the call. *)
Definition describe (o : Outcome Response) : option ErrorDesc :=
  match o with
  | Ret r =>
    if status_code r =? 200 then
      match json r with
      | Some b =>
        match body_data b with
        | Some _ => None
        | None =>
          match body_errors b with
          | Some errs =>
            Some (ApiError match errs with e :: _ => e | [] => "Unknown error" end)
          | None => Some UnexpectedStructure
          end
        end
      | None => Some (UnexpectedErr (ValueError "Expecting value"))
      end
    else Some (HttpError (status_code r) (String.substring 0 200 (text r)))
  | Raise RequestTimeout => Some TimedOut
  | Raise (ConnectionError msg) => Some (ConnectionErr msg)
  | Raise e => Some (UnexpectedErr e)
  end.

(** The responses that are neither a success nor retried with a wait:
    a status other than 200 below 500, or a 200 whose body has no ['data']
    but an ['errors'] list whose first message lacks the backend
    signature. *)
Definition client_or_logic_error (r : Response) : bool :=
  if status_code r =? 200 then
    match json r with
    | Some b =>
      match body_data b, body_errors b with
      | None, Some errs =>
        negb (contains "backend search database"
                match errs with e :: _ => e | [] => "Unknown error" end)
      | _, _ => false
      end
    | None => false
    end
  else status_code r <? 500.

(** The world after one more GET. *)
Definition bump (w : World) : World :=
  {| disk := disk w; requests := S (requests w); slept := slept w; log := log w |}.

(** The first page delivered among the [n] GETs numbered from [start]. *)
Fixpoint first_page (T : nat -> option string -> Outcome Response)
    (key : option string) (start n : nat) : option Page :=
  match n with
  | O => None
  | S n' =>
    match page_of (T start key) with
    | Some d => Some d
    | None => first_page T key (S start) n'
    end
  end.

(** The waits of a call whose every attempt meets a server error. *)
Definition server_error_delays (retry_count retry_delay : Z) : list Z :=
  (fun i => retry_delay * (i + 1)) <$> seqZ 0 (retry_count - 1).

(** No GET is cut short by something outside [Exception]. *)
Definition no_interrupt (T : nat -> option string -> Outcome Response) : Prop :=
  forall n key e, T n key = Raise e -> is_Exception e = true.

(** A backend that answers by the cursor alone, as a transport. *)
Definition fixed_backend (B : option string -> Outcome Response)
    : nat -> option string -> Outcome Response :=
  fun _ => B.

(** The page such a backend has for a cursor. *)
Definition fetch_of (B : option string -> Outcome Response) (key : option string)
    : option Page :=
  page_of (B key).

(** ** Rows and frames *)

(** The cell of a row in a column; [None] is a missing value. *)
Definition cell (col : string) (r : SymbolRec) : option string := r !! col.

(** The rows of a list that have a given cell in a column. *)
Definition with_cell (col : string) (k : option string) (rs : list SymbolRec)
    : list SymbolRec :=
  filter (fun r => cell col r = k) rs.

(** The value [download_all_symbols] returns for the frames collected. *)
Definition merged (dfs : list DataFrame) : Outcome (option DataFrame) :=
  match dfs with
  | [] => Ret None
  | _ :: _ =>
    if bool_decide ("symbol" ∈ columns (concat_frames dfs)) then
      Ret (Some {| columns := columns (concat_frames dfs);
                   rows := drop_dups "symbol" [] (rows (concat_frames dfs)) |})
    else Raise (KeyError "symbol")
  end.


(** The frames read back from a list of files, or the first exception. *)
Fixpoint read_all (read_csv : DataFrame -> Outcome DataFrame) (files : list DataFrame)
    : Outcome (list DataFrame) :=
  match files with
  | [] => Ret []
  | file :: files' =>
    match read_csv file with
    | Ret df =>
      match read_all read_csv files' with
      | Ret dfs => Ret (df :: dfs)
      | Raise e => Raise e
      end
    | Raise e => Raise e
    end
  end.

(** The sum of [len] over frames. *)
Definition total_len (dfs : list DataFrame) : Z :=
  foldr (fun df acc => len df + acc) 0 dfs.

(** ** The split tree and the key/value store *)

(** What the two nested loops of the split write, in order. *)
Definition split_writes (df : DataFrame) : list ((string * string) * DataFrame) :=
  eg ← groupby "exchange" df;
  tg ← groupby "securityType" (snd eg);
  [((fst eg, fst tg), snd tg)].

(** The world after a list of writes into the split tree. *)
Definition apply_writes (ws : list ((string * string) * DataFrame)) (w : World) : World :=
  set_disk {| batch_files := batch_files (disk w);
              state_file := state_file (disk w);
              latest_file := latest_file (disk w);
              split_files := foldl (fun m kv => <[fst kv := snd kv]> m)
                                   (split_files (disk w)) ws |} w.

(** The file of an (exchange, security type) pair. *)
Definition split_file (df : DataFrame) (exchange sec_type : string) : DataFrame :=
  {| columns := columns df;
     rows := filter (fun r : SymbolRec => r !! "securityType" = Some sec_type)
               (filter (fun r : SymbolRec => r !! "exchange" = Some exchange) (rows df)) |}.

(** Every exchange of the frame can name a directory, and every security
    type a file. *)
Definition plain_names (df : DataFrame) : Prop :=
  forall r, r ∈ rows df ->
    (forall e, r !! "exchange" = Some e -> plain_dir e = true)
    /\ (forall t, r !! "securityType" = Some t -> plain_file t = true).

(** All records are of the exchange and the security type of a key. *)
Definition matches (k : string * string) (recs : list SymbolRec) : Prop :=
  forall r, r ∈ recs -> r !! "exchange" = Some (fst k) /\ r !! "securityType" = Some (snd k).

(** ** The loop *)

(** The loop variables of a run that does not resume. *)
Definition fresh_loop : Loop :=
  {| all_dataframes := []; batch := 1; next_key := None;
     total_symbols := 0; total_reported := 0; consecutive_errors := 0 |}.


(** The loop variables after a pass whose fetch gave [result], and the
    [break] taken, if any. *)
Definition advance (result : option Page) (s : Loop) : Loop * option Stop :=
  match result with
  | None =>
    let errs := consecutive_errors s + 1 in
    ({| all_dataframes := all_dataframes s; batch := batch s;
        next_key := next_key s; total_symbols := total_symbols s;
        total_reported := total_reported s; consecutive_errors := errs |},
     if max_consecutive_errors <=? errs then Some Aborted else None)
  | Some p =>
    let reported :=
      if (batch s =? 1) && (0 <? totalFound p) then totalFound p else total_reported s in
    match symbolList p with
    | [] =>
      ({| all_dataframes := all_dataframes s; batch := batch s;
          next_key := next_key s; total_symbols := total_symbols s;
          total_reported := reported; consecutive_errors := 0 |}, Some EndOfData)
    | _ :: _ =>
      let df := DataFrame_of (symbolList p) in
      let total := total_symbols s + Z.of_nat (length (symbolList p)) in
      if negb (hasMore p) || negb (bool_decide (is_Some (nextKey p))) then
        ({| all_dataframes := all_dataframes s ++ [df]; batch := batch s;
            next_key := nextKey p; total_symbols := total;
            total_reported := reported; consecutive_errors := 0 |}, Some NoMoreSymbols)
      else
        ({| all_dataframes := all_dataframes s ++ [df]; batch := batch s + 1;
            next_key := nextKey p; total_symbols := total;
            total_reported := reported; consecutive_errors := 0 |},
         if 1000 <? batch s + 1 then Some SafetyLimit else None)
    end
  end.

(** The disk after that pass. *)
Definition persist (result : option Page) (s : Loop) (d : Disk) : Disk :=
  match result with
  | None => d
  | Some p =>
    match symbolList p with
    | [] => d
    | _ :: _ =>
      {| batch_files := <[batch s := DataFrame_of (symbolList p)]> (batch_files d);
         state_file :=
           Some (Readable
             {| st_batch := batch s + 1; st_next_key := nextKey p;
                st_total_symbols := total_symbols s + Z.of_nat (length (symbolList p));
                st_total_reported :=
                  if (batch s =? 1) && (0 <? totalFound p) then totalFound p
                  else total_reported s |});
         latest_file := latest_file d;
         split_files := split_files d |}
    end
  end.

(** The loop against a backend that answers every fetch of a cursor the
    same way: [fuel] passes at most. *)
Fixpoint run (fetch : option string -> option Page) (fuel : nat) (s : Loop)
    : Loop * option Stop :=
  match fuel with
  | O => (s, None)
  | S fuel' =>
    let r := advance (fetch (next_key s)) s in
    match snd r with
    | Some _ => r
    | None => run fetch fuel' (fst r)
    end
  end.



(** The same loop variables with [consecutive_errors] at 0. *)
Definition reset_errors (s : Loop) : Loop :=
  {| all_dataframes := all_dataframes s; batch := batch s; next_key := next_key s;
     total_symbols := total_symbols s; total_reported := total_reported s;
     consecutive_errors := 0 |}.

(** The frames are the batch files 1, 2, ... of the disk. *)
Definition frames_on_disk (d : Disk) (dfs : list DataFrame) : Prop :=
  forall i : nat, (i < length dfs)%nat -> batch_files d !! (1 + Z.of_nat i) = dfs !! i.

(** What holds of the loop variables and the disk between two passes of a
    run that started fresh. *)
Definition checkpointed (s : Loop) (d : Disk) : Prop :=
  Z.of_nat (length (all_dataframes s)) = batch s - 1
  /\ frames_on_disk d (all_dataframes s)
  /\ total_symbols s = total_len (all_dataframes s)
  /\ 0 <= consecutive_errors s
  /\ (batch s = 1 -> next_key s = None /\ total_reported s = 0)
  /\ (batch s <> 1 ->
      exists st, state_file d = Some (Readable st)
                 /\ st_next_key st = next_key s
                 /\ st_total_reported st = total_reported s).

(** ** Sample inputs *)

(** An empty output directory. *)
Definition empty_disk : Disk :=
  {| batch_files := ∅; state_file := None; latest_file := None; split_files := ∅ |}.

(** The world at the start of a first run. *)
Definition fresh_world : World :=
  {| disk := empty_disk; requests := 0; slept := []; log := [] |}.

(** A response with an error status and a body that is no JSON. *)
Definition http_response (status : Z) (body : string) : Response :=
  {| status_code := status; text := body; json := None |}.

(** A backend that answers every GET with the same status. *)
Definition always_http (status : Z) (n : nat) (key : option string) : Outcome Response :=
  Ret (http_response status "error").

(** A backend whose every GET times out. *)
Definition always_timeout (n : nat) (key : option string) : Outcome Response :=
  Raise RequestTimeout.

(** A 200 whose body is {'errors': [msg]}. *)
Definition api_error_response (msg : string) : Response :=
  {| status_code := 200; text := "";
     json := Some {| body_data := None; body_errors := Some [msg] |} |}.

(** A backend that answers every GET with that error message. *)
Definition always_api_error (msg : string) (n : nat) (key : option string)
    : Outcome Response :=
  Ret (api_error_response msg).

(** A symbol with the three columns the split and the consumer read. *)
Definition symbol_rec (symbol exchange sec_type : string) : SymbolRec :=
  <["symbol" := symbol]> (<["exchange" := exchange]> (<["securityType" := sec_type]> ∅)).

(** A first page, with more to come. *)
Definition page_one : Page :=
  {| symbolList := [symbol_rec "A" "NYSE" "EQUITY"]; totalFound := 2;
     hasMore := true; nextKey := Some "k1" |}.

(** A last page. *)
Definition page_two : Page :=
  {| symbolList := [symbol_rec "B" "CME" "FUTURE"]; totalFound := 2;
     hasMore := false; nextKey := None |}.

(** The 200 that carries a page under ['data']. *)
Definition ok_response (p : Page) : Response :=
  {| status_code := 200; text := "";
     json := Some {| body_data := Some p; body_errors := None |} |}.

(** Two pages, the second one the last. *)
Definition backend_two_pages (key : option string) : Outcome Response :=
  match key with
  | None => Ret (ok_response page_one)
  | Some _ => Ret (ok_response page_two)
  end.

(** The first page, and a 503 for every cursor after it. *)
Definition backend_then_down (key : option string) : Outcome Response :=
  match key with
  | None => Ret (ok_response page_one)
  | Some _ => Ret (http_response 503 "Service Unavailable")
  end.


(** The operator presses Ctrl-C during the GET. *)
Definition interrupted (n : nat) (key : option string) : Outcome Response :=
  Raise KeyboardInterrupt.

(** Loop variables of the fresh run on [backend_two_pages] after one pass. *)
Definition after_page_one : Loop :=
  {| all_dataframes := [DataFrame_of (symbolList page_one)]; batch := 2;
     next_key := Some "k1"; total_symbols := 1; total_reported := 2;
     consecutive_errors := 0 |}.

(** A directory that holds batch 1 and no state file. *)
Definition world_without_state : World :=
  {| disk := {| batch_files := {[ 1 := DataFrame_of (symbolList page_one) ]};
                state_file := None; latest_file := None; split_files := ∅ |};
     requests := 0; slept := []; log := [] |}.

(** A merged frame with two symbols of two exchanges. *)
Definition two_exchanges : DataFrame :=
  DataFrame_of [symbol_rec "A" "NYSE" "EQUITY"; symbol_rec "B" "CME" "FUTURE"].

(** A read that gives every file back as it was written. *)
Definition read_back (file : DataFrame) : Outcome DataFrame := Ret file.

(** A read that takes a cell 'NA' for a missing value, as [pd.read_csv]
    does by default, and gives every other cell back. *)
Definition read_na (file : DataFrame) : Outcome DataFrame :=
  Ret {| columns := columns file;
         rows := (fun r : SymbolRec =>
                    omap (fun v : string => if decide (v = "NA") then None else Some v) r)
                   <$> rows file |}.

(** A file system that refuses every name that is not plain. *)
Definition refuse_dir (exchange : string) (group : DataFrame)
    (tree : gmap (string * string) DataFrame)
    : option (gmap (string * string) DataFrame) := None.

Definition refuse_file (exchange sec_type : string) (group : DataFrame)
    (tree : gmap (string * string) DataFrame)
    : option (gmap (string * string) DataFrame) := None.

(** The consumer's read when every file parses as it was written, and a
    [glob] that finds nothing under an odd name. *)
Definition parse_back (file : DataFrame) : option DataFrame := Some file.

Definition glob_nothing (exchange_name : string) : list DataFrame := [].

(** A first page whose symbol is the ticker NA. *)
Definition page_na : Page :=
  {| symbolList := [symbol_rec "NA" "NASDAQ" "EQUITY"]; totalFound := 2;
     hasMore := true; nextKey := Some "k1" |}.

(** That page, then [page_two]. *)
Definition backend_na (key : option string) : Outcome Response :=
  match key with
  | None => Ret (ok_response page_na)
  | Some _ => Ret (ok_response page_two)
  end.

(** The record of [page_na] as [read_na] gives it back: without its
    symbol. *)
Definition na_read_back : SymbolRec :=
  <["exchange" := "NASDAQ"]> (<["securityType" := "EQUITY"]> ∅).

(** A directory that holds [page_na] as batch 1 and no state file. *)
Definition world_without_state_na : World :=
  {| disk := {| batch_files := {[ 1 := DataFrame_of (symbolList page_na) ]};
                state_file := None; latest_file := None; split_files := ∅ |};
     requests := 0; slept := []; log := [] |}.

(** A symbol whose security type holds a path separator. *)
Definition slash_type : DataFrame :=
  DataFrame_of [symbol_rec "A" "NYSE" "EQ/UITY"].

(** ** Schedules, checkpoints and harvests *)

(** The wait that the outcome of attempt number [attempt] asks for before
    the next attempt, by the branches of [search_symbols]; [None] where the
    code does not sleep. *)
Definition backoff (o : Outcome Response) (retry_delay attempt : Z) : option Z :=
  match o with
  | Ret r =>
    if status_code r =? 200 then
      match json r with
      | Some b =>
        match body_data b, body_errors b with
        | None, Some errs =>
          if contains "backend search database"
               match errs with e :: _ => e | [] => "Unknown error" end
          then Some (retry_delay * (attempt + 2))
          else None
        | _, _ => None
        end
      | None => Some retry_delay
      end
    else if 500 <=? status_code r then Some (retry_delay * (attempt + 1))
    else None
  | Raise RequestTimeout => Some retry_delay
  | Raise (ConnectionError _) => Some (retry_delay * (attempt + 1))
  | Raise _ => Some retry_delay
  end.

(** The number of GETs a call issues when it is given [n] attempts from
    GET number [start]: up to the first page delivered. *)
Fixpoint attempts_used (T : nat -> option string -> Outcome Response)
    (key : option string) (start n : nat) : nat :=
  match n with
  | O => O
  | S n' =>
    match page_of (T start key) with
    | Some _ => 1
    | None => S (attempts_used T key (S start) n')
    end
  end.

(** The waits of such a call, in order. *)
Definition backoff_schedule (T : nat -> option string -> Outcome Response)
    (key : option string) (retry_delay : Z) (start used : nat) : list Z :=
  omap (fun i : nat => backoff (T (start + i)%nat key) retry_delay (Z.of_nat i))
       (seq 0 (used - 1)).

(** Two backend-busy errors, then the first page. *)
Definition busy_twice (n : nat) (key : option string) : Outcome Response :=
  if (n <? 2)%nat
  then Ret (api_error_response "Error connecting to backend search database.")
  else Ret (ok_response page_one).

(** The batch files numbered 1 .. N - 1 that exist, in this order. *)
Definition existing_batches (d : Disk) (N : Z) : list DataFrame :=
  omap (fun i : Z => batch_files d !! i) (seqZ 1 (N - 1)).

(** The state file, when it can be read, is the checkpoint of the loop
    variables. *)
Definition names_next (s : Loop) (d : Disk) : Prop :=
  state_file d
  = Some (Readable {| st_batch := batch s; st_next_key := next_key s;
                      st_total_symbols := total_symbols s;
                      st_total_reported := total_reported s |}).

(** The pages a fresh run collects from a backend that answers by the
    cursor alone: it follows the cursors until a fetch fails, a page is
    empty or is the last one, and for [n] pages at most. *)
Fixpoint harvest (fetch : option string -> option Page) (n : nat)
    (key : option string) : list Page :=
  match n with
  | O => []
  | S n' =>
    match fetch key with
    | None => []
    | Some p =>
      match symbolList p with
      | [] => []
      | _ :: _ =>
        if negb (hasMore p) || negb (bool_decide (is_Some (nextKey p))) then [p]
        else p :: harvest fetch n' (nextKey p)
      end
    end
  end.

(** The frames of a list of pages. *)
Definition frames_of (pages : list Page) : list DataFrame :=
  (fun p => DataFrame_of (symbolList p)) <$> pages.

(** A file as the split writes it for an (exchange, security type) pair:
    with the three columns the consumer asks for, at least one row, and
    only rows of that exchange and that type. *)
Definition file_of (exchange sec_type : string) (f : DataFrame) : Prop :=
  "symbol" ∈ columns f /\ "exchange" ∈ columns f /\ "securityType" ∈ columns f
  /\ rows f <> []
  /\ forall r, r ∈ rows f ->
       r !! "exchange" = Some exchange /\ r !! "securityType" = Some sec_type.

(** The store after the files of one exchange. *)
Definition store_exchange (read_csv : DataFrame -> option DataFrame)
    (odd_glob : string -> list DataFrame)
    (tree : gmap (string * string) DataFrame)
    (redis : gmap (string * string) (list SymbolRec)) (exchange_name : string)
    : gmap (string * string) (list SymbolRec) :=
  foldl (fun acc' df => process_csv read_csv exchange_name df acc')
        redis (csv_files odd_glob tree exchange_name).

(** * Properties *)

(** ** search_symbols *)

Example contains_inside :
  contains "backend search database"
    "Error connecting to backend search database." = true.
Proof. reflexivity. Qed.

Example contains_absent : contains "backend search database" "Invalid request" = false.
Proof. reflexivity. Qed.

Lemma sleep_ok d w :
  0 <= d ->
  sleep d w = (Ret tt, {| disk := disk w; requests := requests w;
                          slept := slept w ++ [d]; log := log w |}).
Proof.
  intros Hd. unfold sleep. destruct (Z.ltb_spec d 0); [lia | reflexivity].
Qed.

Section Pass.
Variable T : nat -> option string -> Outcome Response.
Variables (key : option string) (rc rd a : Z) (le : option ErrorDesc) (w : World).
Hypothesis Hrd : 0 <= rd.
Hypothesis Ha : 0 <= a.
Hypothesis Hexc : forall e, T (requests w) key = Raise e -> is_Exception e = true.

Lemma pass_spec :
  exists flow w1,
    try_except (attempt_try T key rc rd a le) (attempt_except rc rd a) w = (Ret flow, w1)
    /\ requests w1 = S (requests w) /\ log w1 = log w /\ disk w1 = disk w
    /\ match page_of (T (requests w) key) with
       | Some d => flow = Return_ d
       | None => exists le1, flow = NextAttempt le1
                   /\ (rc - 1 <= a -> le1 = describe (T (requests w) key))
       end.
Proof.
  assert (H1 : 0 <= rd * (a + 1)) by nia.
  assert (H2 : 0 <= rd * (a + 2)) by nia.
  unfold try_except, attempt_try, bind, session_get.
  destruct (T (requests w) key) as [r|e] eqn:ET; simpl.
  - destruct (status_code r =? 200) eqn:E200.
    + unfold response_json. destruct (json r) as [b|] eqn:EJ; simpl.
      * unfold ret at 1. simpl.
        destruct (body_data b) as [d|] eqn:ED; simpl.
        { eexists _, _. repeat split; reflexivity. }
        destruct (body_errors b) as [errs|] eqn:EE; simpl.
        2:{ eexists _, _. repeat split; try reflexivity.
            eexists; split; [reflexivity|]. intros _; reflexivity. }
        destruct (contains _ _); simpl.
        2:{ eexists _, _. repeat split; try reflexivity.
            eexists; split; [reflexivity|]. intros _; reflexivity. }
        destruct (Z.ltb_spec a (rc - 1)); simpl.
        { unfold bind. rewrite sleep_ok by done. simpl.
          eexists _, _. repeat split; try reflexivity.
          eexists; split; [reflexivity|]. lia. }
        eexists _, _. repeat split; try reflexivity.
        eexists; split; [reflexivity|]. intros _; reflexivity.
      * unfold raise; simpl. unfold attempt_except; simpl.
        destruct (Z.ltb_spec a (rc - 1)); simpl; unfold bind.
        { rewrite sleep_ok by done. simpl.
          eexists _, _. repeat split; try reflexivity.
          eexists; split; [reflexivity|]. lia. }
        simpl. eexists _, _. repeat split; try reflexivity.
        eexists; split; [reflexivity|]. done.
    + destruct (Z.leb_spec 500 (status_code r)); simpl;
        [destruct (Z.ltb_spec a (rc - 1)); simpl|].
      * unfold bind. rewrite sleep_ok by done. simpl.
        eexists _, _. repeat split; try reflexivity.
        eexists; split; [reflexivity|]. lia.
      * eexists _, _. repeat split; try reflexivity.
        eexists; split; [reflexivity|]. done.
      * eexists _, _. repeat split; try reflexivity.
        eexists; split; [reflexivity|]. done.
  - specialize (Hexc e eq_refl).
    unfold attempt_except.
    destruct e; simpl in *; try discriminate.
    all: destruct (Z.ltb_spec a (rc - 1)); simpl; unfold bind.
    all: try (rewrite sleep_ok by done); simpl.
    all: eexists _, _; repeat split; try reflexivity.
    all: eexists; split; [reflexivity|]; first [lia | done].
Qed.
End Pass.

Lemma first_page_None T key n : forall start,
  first_page T key start n = None <->
  forall i, (i < n)%nat -> page_of (T (start + i)%nat key) = None.
Proof.
  induction n as [|n IH]; intros start; simpl.
  - split; [intros _ i Hi; lia | done].
  - destruct (page_of (T start key)) as [d|] eqn:E.
    + split; [done|]. intros H. specialize (H 0%nat ltac:(lia)).
      rewrite Nat.add_0_r in H. congruence.
    + rewrite IH. split; intros H i Hi.
      * destruct i as [|i]; [by rewrite Nat.add_0_r|].
        replace (start + S i)%nat with (S start + i)%nat by lia. apply H. lia.
      * replace (S start + i)%nat with (start + S i)%nat by lia. apply H. lia.
Qed.

Section Attempts.
Variable T : nat -> option string -> Outcome Response.
Variables (key : option string) (rc rd : Z).
Hypothesis Hrd : 0 <= rd.

Lemma attempts_spec n : forall a le w,
  0 <= a -> a + Z.of_nat n = rc ->
  (forall i e, (i < n)%nat -> T (requests w + i)%nat key = Raise e -> is_Exception e = true) ->
  exists w',
    attempts T n key rc rd a le w = (Ret (first_page T key (requests w) n), w')
    /\ disk w' = disk w
    /\ (first_page T key (requests w) n = None ->
        requests w' = (requests w + n)%nat
        /\ log w' = log w ++ [AllRetriesFailed
                                match n with
                                | O => le
                                | S n' => describe (T (requests w + n')%nat key)
                                end]).
Proof.
  induction n as [|n IH]; intros a le w Ha Hn Hexc.
  - simpl. unfold bind, logger, ret; simpl. eexists. repeat split; simpl; auto.
  - destruct (pass_spec T key rc rd a le w Hrd Ha) as (flow & w1 & Ep & Hr & Hl & Hd & Hflow).
    { intros e He. apply (Hexc 0%nat); [lia|]. by rewrite Nat.add_0_r. }
    simpl. unfold bind at 1. rewrite Ep.
    destruct (page_of (T (requests w) key)) as [d|] eqn:Epage.
    + subst flow. unfold ret. eexists; repeat split; eauto; discriminate.
    + destruct Hflow as (le1 & -> & Hle1).
      destruct (IH (a + 1) le1 w1) as (w' & Ea & Hd' & Hnone); [lia | lia | |].
      { intros i e Hi. rewrite Hr. replace (S (requests w) + i)%nat with (requests w + S i)%nat by lia.
        apply Hexc. lia. }
      rewrite Hr in *. exists w'. split; [exact Ea|]. split; [congruence|].
      intros Hfp. destruct (Hnone Hfp) as [Hreq Hlog]. split; [lia|].
      rewrite Hlog, Hl. do 3 f_equal.
      destruct n as [|n'].
      * rewrite Nat.add_0_r. apply Hle1. lia.
      * f_equal. f_equal. lia.
Qed.
End Attempts.

Section ServerErrors.
Variable T : nat -> option string -> Outcome Response.
Variables (key : option string) (rc rd : Z).
Hypothesis Hrd : 0 <= rd.

Lemma attempts_server_errors n : forall a le w,
  0 <= a -> a + Z.of_nat n = rc ->
  (forall i, (i < n)%nat ->
     exists r, T (requests w + i)%nat key = Ret r /\ 500 <= status_code r) ->
  exists w',
    attempts T n key rc rd a le w = (Ret None, w')
    /\ requests w' = (requests w + n)%nat
    /\ slept w' = slept w ++ ((fun i => rd * (i + 1)) <$> seqZ a (Z.of_nat n - 1)).
Proof.
  induction n as [|n IH]; intros a le w Ha Hn H5.
  - simpl. unfold bind, logger, ret; simpl. eexists. repeat split; simpl; auto.
    by rewrite app_nil_r.
  - destruct (H5 0%nat ltac:(lia)) as (r & Er & Hs). rewrite Nat.add_0_r in Er.
    simpl. unfold bind at 1, try_except, attempt_try, bind, session_get. rewrite Er. simpl.
    destruct (Z.eqb_spec (status_code r) 200) as [|_]; [lia|].
    destruct (Z.leb_spec 500 (status_code r)) as [_|]; [|lia]. simpl.
    assert (Hnext : forall w1, requests w1 = S (requests w) ->
              forall i, (i < n)%nat ->
              exists r, T (requests w1 + i)%nat key = Ret r /\ 500 <= status_code r).
    { intros w1 Hw1 i Hi. rewrite Hw1.
      replace (S (requests w) + i)%nat with (requests w + S i)%nat by lia. apply H5. lia. }
    destruct (Z.ltb_spec a (rc - 1)) as [Hlt|Hge]; simpl.
    + rewrite sleep_ok by nia. simpl.
      lazymatch goal with
      | |- context [attempts _ _ _ _ _ _ ?le1 ?w1] =>
        destruct (IH (a + 1) le1 w1) as (w' & Ea & Hreq & Hsl);
          [lia | lia | apply Hnext; reflexivity |]
      end.
      exists w'. split; [exact Ea|]. simpl in *. split; [lia|].
      rewrite Hsl, <- app_assoc. f_equal.
      rewrite (seqZ_cons a (Z.of_nat (S n) - 1)) by lia. simpl.
      do 3 f_equal; lia.
    + lazymatch goal with
      | |- context [attempts _ _ _ _ _ _ ?le1 ?w1] =>
        destruct (IH (a + 1) le1 w1) as (w' & Ea & Hreq & Hsl);
          [lia | lia | apply Hnext; reflexivity |]
      end.
      exists w'. split; [exact Ea|]. simpl in *. split; [lia|].
      rewrite Hsl. f_equal. assert (n = 0%nat) as -> by lia. reflexivity.
Qed.
End ServerErrors.

Lemma server_error_delays_sorted rc rd :
  0 <= rd -> StronglySorted Z.le (server_error_delays rc rd).
Proof.
  intros Hrd. unfold server_error_delays.
  generalize 0 at 1. generalize (rc - 1). intros len.
  destruct (Z.le_gt_cases len 0) as [Hle|Hgt].
  { intros m. rewrite seqZ_nil by lia. constructor. }
  intros m. rewrite <- (Z2Nat.id len) by lia.
  generalize (Z.to_nat len) as k. intros k. revert m.
  induction k as [|k IH]; intros m.
  - simpl. constructor.
  - rewrite seqZ_cons by lia. simpl. constructor.
    + replace (Z.pred (Z.of_nat (S k))) with (Z.of_nat k) by lia. apply IH.
    + apply Forall_fmap, Forall_forall. intros x Hx. simpl.
      apply elem_of_seqZ in Hx. nia.
Qed.

(** C6. A call of [search_symbols] whose every attempt receives a status of
    500 or more issues exactly [retry_count] GETs and then gives up; before
    the attempt after the failed attempt number i (from 0) it sleeps
    retry_delay * (i + 1) seconds, and these waits never decrease. *)
Theorem search_symbols_server_error_backoff
    (T : nat -> option string -> Outcome Response)
    (key : option string) (retry_count retry_delay : Z) (w : World) :
  0 <= retry_delay ->
  (forall i, (i < Z.to_nat retry_count)%nat ->
     exists r, T (requests w + i)%nat key = Ret r /\ 500 <= status_code r) ->
  exists w',
    search_symbols T key retry_count retry_delay w = (Ret None, w')
    /\ requests w' = (requests w + Z.to_nat retry_count)%nat
    /\ slept w' = slept w ++ server_error_delays retry_count retry_delay
    /\ (forall i, 0 <= i < retry_count - 1 ->
        server_error_delays retry_count retry_delay !! Z.to_nat i
        = Some (retry_delay * (i + 1)))
    /\ StronglySorted Z.le (server_error_delays retry_count retry_delay).
Proof.
  intros Hrd H5.
  destruct (Z.le_gt_cases retry_count 0) as [Hle|Hgt].
  - exists {| disk := disk w; requests := requests w; slept := slept w;
              log := log w ++ [AllRetriesFailed None] |}.
    unfold search_symbols, server_error_delays.
    replace (Z.to_nat retry_count) with 0%nat by lia.
    rewrite seqZ_nil by lia. simpl. rewrite app_nil_r.
    repeat split; auto. intros i Hi. lia. constructor.
  - destruct (attempts_server_errors T key retry_count retry_delay Hrd
                (Z.to_nat retry_count) 0 None w) as (w' & Ea & Hreq & Hsl); [lia | lia | exact H5 |].
    exists w'. unfold search_symbols. split; [exact Ea|]. split; [exact Hreq|].
    split; [|split].
    + rewrite Hsl. unfold server_error_delays. by rewrite Z2Nat.id by lia.
    + intros i Hi. unfold server_error_delays. rewrite list_lookup_fmap.
      rewrite lookup_seqZ_lt by lia. simpl. f_equal. lia.
    + by apply server_error_delays_sorted.
Qed.

(** Three 503s with the default delay of 5 seconds. *)
Lemma search_symbols_server_error_backoff_witness :
  exists w',
    search_symbols (always_http 503) None 3 5 fresh_world = (Ret None, w')
    /\ requests w' = 3%nat
    /\ slept w' = [5; 10].
Proof.
  destruct (search_symbols_server_error_backoff (always_http 503) None 3 5 fresh_world)
    as (w' & E & Hr & Hs & _).
  - lia.
  - intros i _. eexists. split; [reflexivity|]. simpl. lia.
  - exists w'. split; [exact E|]. split; [exact Hr|]. exact Hs.
Defined.

Section ClientErrors.
Variable T : nat -> option string -> Outcome Response.
Variables (key : option string) (rc rd : Z).

Lemma attempts_client_error n a le w r :
  T (requests w) key = Ret r ->
  client_or_logic_error r = true ->
  attempts T (S n) key rc rd a le w
  = attempts T n key rc rd (a + 1) (describe (Ret r)) (bump w).
Proof.
  intros Er Hc. simpl.
  unfold bind at 1, try_except, attempt_try, bind, session_get. rewrite Er. simpl.
  unfold client_or_logic_error in Hc. unfold bump.
  destruct (status_code r =? 200) eqn:E200.
  - unfold response_json. destruct (json r) as [b|]; [|discriminate]. simpl.
    destruct (body_data b); [discriminate|].
    destruct (body_errors b) as [errs|]; [|discriminate].
    apply negb_true_iff in Hc. rewrite Hc. reflexivity.
  - apply Z.ltb_lt in Hc.
    destruct (Z.leb_spec 500 (status_code r)); [lia|]. reflexivity.
Qed.

Lemma attempts_client_errors n : forall a le w,
  (forall i, (i < n)%nat ->
     exists r, T (requests w + i)%nat key = Ret r /\ client_or_logic_error r = true) ->
  exists w',
    attempts T n key rc rd a le w = (Ret None, w')
    /\ requests w' = (requests w + n)%nat
    /\ slept w' = slept w.
Proof.
  induction n as [|n IH]; intros a le w Hall.
  - simpl. unfold bind, logger, ret; simpl. eexists. repeat split; simpl; auto.
  - destruct (Hall 0%nat ltac:(lia)) as (r & Er & Hc). rewrite Nat.add_0_r in Er.
    rewrite (attempts_client_error n a le w r Er Hc).
    destruct (IH (a + 1) (describe (Ret r)) (bump w)) as (w' & Ea & Hreq & Hsl).
    { intros i Hi. unfold bump; cbn [requests].
      replace (S (requests w) + i)%nat with (requests w + S i)%nat by lia.
      apply Hall. lia. }
    exists w'. split; [exact Ea|]. simpl in *. split; [lia | exact Hsl].
Qed.
End ClientErrors.

(** C2, as the code has it.  An attempt that receives a status other than
    200 below 500, or a 200 body whose first error message lacks the backend
    signature, records the error in [last_error], sleeps not at all and is
    followed at once by the next pass of the loop; the failure is returned
    only when the attempts are used up, so a call that meets nothing else
    issues all [retry_count] GETs. *)
Theorem search_symbols_client_error_no_backoff
    (T : nat -> option string -> Outcome Response)
    (key : option string) (retry_count retry_delay : Z) :
  (forall n a le w r,
     T (requests w) key = Ret r ->
     client_or_logic_error r = true ->
     attempts T (S n) key retry_count retry_delay a le w
     = attempts T n key retry_count retry_delay (a + 1) (describe (Ret r)) (bump w))
  /\ (forall w,
        (forall i, (i < Z.to_nat retry_count)%nat ->
           exists r, T (requests w + i)%nat key = Ret r /\ client_or_logic_error r = true) ->
        exists w',
          search_symbols T key retry_count retry_delay w = (Ret None, w')
          /\ requests w' = (requests w + Z.to_nat retry_count)%nat
          /\ slept w' = slept w).
Proof.
  split.
  - intros. by apply attempts_client_error.
  - intros w Hall. unfold search_symbols. by apply attempts_client_errors.
Qed.

(** Three 404s. *)
Lemma search_symbols_client_error_no_backoff_witness :
  exists w',
    search_symbols (always_http 404) None 3 5 fresh_world = (Ret None, w')
    /\ requests w' = 3%nat /\ slept w' = [].
Proof.
  destruct (search_symbols_client_error_no_backoff (always_http 404) None 3 5) as [_ H].
  destruct (H fresh_world) as (w' & E & Hr & Hs).
  - intros i _. eexists. split; reflexivity.
  - exists w'. split; [exact E|]. split; [exact Hr | exact Hs].
Defined.

(** C2, as stated, fails: the first attempt receives a 404 (or a 200 with
    an unknown error message), and two more GETs follow it all the same. *)
Lemma search_symbols_retries_client_errors :
  client_or_logic_error (http_response 404 "error") = true
  /\ requests (snd (search_symbols (always_http 404) None 3 5 fresh_world)) = 3%nat
  /\ client_or_logic_error (api_error_response "Invalid request") = true
  /\ requests (snd (search_symbols (always_api_error "Invalid request") None 3 5
                      fresh_world)) = 3%nat.
Proof. repeat split; vm_compute; reflexivity. Qed.

(** C5, as the code has it.  A call that uses up its attempts, none of
    them interrupted by something outside [Exception], with a non-negative
    [retry_delay], returns [None] after [retry_count] GETs and never
    raises; the description of the last attempt's error goes to the log, not
    into the returned value. *)
Theorem search_symbols_exhausted_returns_None
    (T : nat -> option string -> Outcome Response)
    (key : option string) (retry_count retry_delay : Z) (w : World) :
  0 <= retry_delay ->
  (forall i e, (i < Z.to_nat retry_count)%nat ->
     T (requests w + i)%nat key = Raise e -> is_Exception e = true) ->
  (forall i, (i < Z.to_nat retry_count)%nat ->
     page_of (T (requests w + i)%nat key) = None) ->
  exists w',
    search_symbols T key retry_count retry_delay w = (Ret None, w')
    /\ requests w' = (requests w + Z.to_nat retry_count)%nat
    /\ disk w' = disk w
    /\ log w' = log w ++
         [AllRetriesFailed
            match Z.to_nat retry_count with
            | O => None
            | S n' => describe (T (requests w + n')%nat key)
            end].
Proof.
  intros Hrd Hexc Hfail.
  assert (Hfp : first_page T key (requests w) (Z.to_nat retry_count) = None)
    by (by apply first_page_None).
  destruct (Z.le_gt_cases retry_count 0) as [Hle|Hgt].
  - unfold search_symbols. replace (Z.to_nat retry_count) with 0%nat by lia.
    simpl. unfold bind, logger, ret. simpl. eexists. repeat split; simpl; auto.
  - destruct (attempts_spec T key retry_count retry_delay Hrd (Z.to_nat retry_count)
                0 None w) as (w' & Ea & Hd & Hnone); [lia | lia | exact Hexc |].
    rewrite Hfp in Ea. destruct (Hnone Hfp) as [Hreq Hlog].
    exists w'. unfold search_symbols. auto.
Qed.

(** Three timeouts. *)
Lemma search_symbols_exhausted_returns_None_witness :
  exists w',
    search_symbols always_timeout None 3 5 fresh_world = (Ret None, w')
    /\ log w' = [AllRetriesFailed (Some TimedOut)].
Proof.
  destruct (search_symbols_exhausted_returns_None always_timeout None 3 5 fresh_world)
    as (w' & E & _ & _ & Hl).
  - lia.
  - intros i e _ He. inversion He. reflexivity.
  - intros i _. reflexivity.
  - exists w'. split; [exact E | exact Hl].
Defined.

(** C5, as stated, fails: two exhausted calls whose last errors differ
    return the very same value, which therefore carries neither. *)
Lemma search_symbols_failure_value_has_no_description :
  fst (search_symbols (always_http 404) None 3 5 fresh_world) = Ret None
  /\ fst (search_symbols always_timeout None 3 5 fresh_world) = Ret None
  /\ log (snd (search_symbols (always_http 404) None 3 5 fresh_world))
     = [AllRetriesFailed (Some (HttpError 404 "error"))]
  /\ log (snd (search_symbols always_timeout None 3 5 fresh_world))
     = [AllRetriesFailed (Some TimedOut)].
Proof. repeat split; vm_compute; reflexivity. Qed.

(** ** Merging the batches *)

Section DropDups.
Variable col : string.


Lemma drop_dups_not_seen rs : forall seen r,
  r ∈ drop_dups col seen rs -> cell col r ∉ seen.
Proof.
  induction rs as [|x rs IH]; intros seen r; simpl; [by intros ?%elem_of_nil|].
  case_bool_decide as Hx.
  - apply IH.
  - intros [->|Hr]%elem_of_cons; [exact Hx|].
    apply IH in Hr. intros Hin. apply Hr. by right.
Qed.

Lemma drop_dups_NoDup rs : forall seen,
  NoDup (cell col <$> drop_dups col seen rs).
Proof.
  induction rs as [|x rs IH]; intros seen; simpl; [constructor|].
  case_bool_decide as Hx; [apply IH|].
  simpl. constructor; [|apply IH].
  intros (r & Hk & Hr)%list_elem_of_fmap.
  apply drop_dups_not_seen in Hr. apply Hr. unfold cell in *. rewrite <- Hk. by left.
Qed.

(** First occurrence wins: for a key not seen before, the first row with
    that key is the same before and after. *)
Lemma drop_dups_first rs : forall seen k,
  k ∉ seen ->
  head (with_cell col k (drop_dups col seen rs)) = head (with_cell col k rs).
Proof.
  unfold with_cell.
  induction rs as [|x rs IH]; intros seen k Hk; simpl; [done|].
  case_bool_decide as Hx.
  - rewrite (filter_cons _ x rs). destruct (decide (cell col x = k)) as [<-|Hne].
    + done.
    + by apply IH.
  - rewrite !filter_cons. destruct (decide (cell col x = k)) as [<-|Hne]; [done|].
    apply IH. intros [?|?]%elem_of_cons; [by apply Hne | done].
Qed.

Lemma drop_dups_once rs : forall seen k,
  k ∉ seen -> k ∈ cell col <$> rs ->
  length (with_cell col k (drop_dups col seen rs)) = 1%nat.
Proof.
  intros seen k Hk Hin.
  pose proof (drop_dups_first rs seen k Hk) as Hhead.
  pose proof (drop_dups_NoDup rs seen) as Hnd.
  assert (Hsome : is_Some (head (with_cell col k rs))).
  { apply list_elem_of_fmap in Hin as (r & -> & Hr).
    destruct (with_cell col (cell col r) rs) as [|y l] eqn:E; [|by eexists].
    assert (r ∈ with_cell col (cell col r) rs) as Hr'
      by (by apply list_elem_of_filter).
    rewrite E in Hr'. by apply elem_of_nil in Hr'. }
  rewrite <- Hhead in Hsome.
  revert Hnd Hsome. generalize (drop_dups col seen rs) as out. clear.
  unfold with_cell. induction out as [|y out IH]; intros Hnd [z Hz]; [done|].
  apply NoDup_cons in Hnd as [Hy Hnd]. fold (fmap (cell col) out) in Hy.
  rewrite filter_cons in *. destruct (decide (cell col y = k)) as [Ek|Ene].
  - simpl. f_equal.
    destruct (filter (λ r, cell col r = k) out) as [|u l] eqn:E; [done|].
    exfalso. apply Hy. apply list_elem_of_fmap. exists u.
    assert (Hu : u ∈ filter (λ r, cell col r = k) out) by (rewrite E; by left).
    apply list_elem_of_filter in Hu as [Hu1 Hu2]. split; [congruence | done].
  - apply IH; [done | by exists z].
Qed.


End DropDups.


(** ** Splitting, and the consumer *)

Lemma elem_of_groupby col df k g :
  (k, g) ∈ groupby col df <->
  g = {| columns := columns df;
         rows := filter (fun r : SymbolRec => r !! col = Some k) (rows df) |}
  /\ exists r, r ∈ rows df /\ r !! col = Some k.
Proof.
  unfold groupby. rewrite list_elem_of_fmap. split.
  - intros (k' & [= -> ->] & Hk). split; [done|].
    rewrite merge_sort_Permutation in Hk.
    apply elem_of_remove_dups, list_elem_of_omap in Hk. exact Hk.
  - intros (-> & Hr). exists k. split; [done|].
    rewrite merge_sort_Permutation.
    by apply elem_of_remove_dups, list_elem_of_omap.
Qed.

Lemma apply_writes_nil w : apply_writes [] w = w.
Proof. by destruct w as [[] ? ? ?]. Qed.

Lemma apply_writes_app ws1 ws2 w :
  apply_writes (ws1 ++ ws2) w = apply_writes ws2 (apply_writes ws1 w).
Proof. unfold apply_writes, set_disk. simpl. by rewrite foldl_app. Qed.

Lemma for_each_writes {A} (f : A -> list ((string * string) * DataFrame))
    (body : A -> M unit) (l : list A) :
  (forall x, x ∈ l -> forall w, body x w = (Ret tt, apply_writes (f x) w)) ->
  forall w, for_each l body w = (Ret tt, apply_writes (l ≫= f) w).
Proof.
  induction l as [|x l IH]; intros Hbody w; simpl.
  - unfold ret. by rewrite apply_writes_nil.
  - unfold bind. rewrite Hbody by (by left).
    rewrite IH by (intros y Hy; apply Hbody; by right).
    by rewrite apply_writes_app.
Qed.

Section Split.
Variable odd_dir :
  string -> DataFrame -> gmap (string * string) DataFrame
  -> option (gmap (string * string) DataFrame).
Variable odd_file :
  string -> string -> DataFrame -> gmap (string * string) DataFrame
  -> option (gmap (string * string) DataFrame).

(** With plain names the two loops of the split never ask the file system
    oracle: they are a list of writes. *)
Lemma split_loops df w :
  plain_names df ->
  for_each (groupby "exchange" df) (fun eg =>
    if plain_dir (fst eg) then
      for_each (groupby "securityType" (snd eg)) (fun tg =>
        write_split odd_file (fst eg) (fst tg) (snd tg))
    else tree_step (odd_dir (fst eg) (snd eg))) w
  = (Ret tt, apply_writes (split_writes df) w).
Proof.
  intros Hplain. unfold split_writes. apply for_each_writes.
  intros [e eg] Heg w1. apply elem_of_groupby in Heg as (-> & r & Hr & He).
  cbn [fst snd]. rewrite (proj1 (Hplain r Hr) e He).
  apply for_each_writes. intros [t tg] Htg w2.
  apply elem_of_groupby in Htg as (-> & r' & Hr' & Ht). cbn [rows] in Hr'.
  apply list_elem_of_filter in Hr' as [_ Hr'].
  unfold write_split. cbn [fst snd]. rewrite (proj2 (Hplain r' Hr') t Ht).
  reflexivity.
Qed.

(** The split of a frame with the two columns and plain names. *)
Lemma split_plain df w :
  "exchange" ∈ columns df -> "securityType" ∈ columns df -> plain_names df ->
  split_symbols_by_exchange_and_type odd_dir odd_file (Some df) w
  = (Ret tt, apply_writes (split_writes df) w).
Proof.
  intros He Ht Hplain. unfold split_symbols_by_exchange_and_type.
  rewrite !bool_decide_true by done. simpl. by apply split_loops.
Qed.
End Split.

Lemma split_writes_spec df e t v :
  ((e, t), v) ∈ split_writes df <->
  v = split_file df e t
  /\ exists r, r ∈ rows df /\ r !! "exchange" = Some e /\ r !! "securityType" = Some t.
Proof.
  unfold split_writes. rewrite list_elem_of_bind. split.
  - intros ([e' eg] & Hin & Heg). apply elem_of_groupby in Heg as (-> & _).
    apply list_elem_of_bind in Hin as ([t' tg] & Hin & Htg).
    apply list_elem_of_singleton in Hin. simpl in Hin. injection Hin as -> -> ->.
    apply elem_of_groupby in Htg as (-> & r & Hr & Ht). simpl in *.
    split; [done|]. apply list_elem_of_filter in Hr as [He Hr]. eauto.
  - intros (-> & r & Hr & He & Ht).
    exists (e, {| columns := columns df;
                  rows := filter (fun r : SymbolRec => r !! "exchange" = Some e) (rows df) |}).
    split; [|apply elem_of_groupby; eauto].
    apply list_elem_of_bind. exists (t, split_file df e t). split; [by left|].
    apply elem_of_groupby. simpl. split; [done|]. exists r. split; [|done].
    by apply list_elem_of_filter.
Qed.

Lemma apply_writes_lookup ws (val : string * string -> DataFrame) : forall w k,
  (forall k' v, (k', v) ∈ ws -> v = val k') ->
  split_files (disk (apply_writes ws w)) !! k
  = if decide (k ∈ ws.*1) then Some (val k) else split_files (disk w) !! k.
Proof.
  induction ws as [|[k0 v0] ws IH] using rev_ind; intros w k Hval.
  - case_decide as Hin; [by apply elem_of_nil in Hin|]. by rewrite apply_writes_nil.
  - rewrite apply_writes_app. unfold apply_writes at 1. simpl.
    rewrite fmap_app. simpl.
    destruct (decide (k0 = k)) as [->|Hne].
    + rewrite lookup_insert_eq. rewrite decide_True by (apply elem_of_app; right; by left).
      f_equal. apply Hval. apply elem_of_app. right. by left.
    + rewrite lookup_insert_ne by done.
      fold (disk (apply_writes ws w)).
      change (foldl _ _ ws) with (split_files (disk (apply_writes ws w))).
      rewrite IH by (intros; apply Hval, elem_of_app; by left).
      destruct (decide (k ∈ ws.*1)) as [Hin|Hnin].
      * rewrite decide_True; [done | apply elem_of_app; by left].
      * rewrite decide_False; [done|].
        intros [?|Hk%list_elem_of_singleton]%elem_of_app; [done | by apply Hne].
Qed.

Lemma foldl_invariant {A B} (P : A -> Prop) (f : A -> B -> A) (l : list B) : forall a,
  P a -> (forall a x, x ∈ l -> P a -> P (f a x)) -> P (foldl f a l).
Proof.
  induction l as [|x l IH]; intros a Ha Hf; simpl; [done|].
  apply IH; [apply Hf; [by left | done]|].
  intros a' y Hy. apply Hf. by right.
Qed.

Lemma process_csv_matches (read_csv : DataFrame -> option DataFrame)
    (redis0 : gmap (string * string) (list SymbolRec))
    (e : string) (file : DataFrame)
    (redis : gmap (string * string) (list SymbolRec)) :
  (forall k recs, redis !! k = Some recs -> redis0 !! k = Some recs \/ matches k recs) ->
  forall k recs, process_csv read_csv e file redis !! k = Some recs ->
    redis0 !! k = Some recs \/ matches k recs.
Proof.
  intros Hinv. unfold process_csv.
  destruct (read_csv file) as [df|]; [|exact Hinv].
  destruct (_ || _); [exact Hinv|]. cbn [rows].
  destruct (filter _ (rows df)) as [|r0 rs0] eqn:Ef; [exact Hinv|]. rewrite <- Ef.
  apply (foldl_invariant
    (fun m : gmap (string * string) (list SymbolRec) =>
       forall k recs, m !! k = Some recs -> redis0 !! k = Some recs \/ matches k recs));
    [exact Hinv|].
  intros acc [t g] Hg Hacc k recs. simpl.
  apply elem_of_groupby in Hg as (-> & _). simpl.
  destruct (decide ((e, t) = k)) as [<-|Hne].
  - rewrite lookup_insert_eq. intros [= <-]. right.
    intros r [Ht [He _]%list_elem_of_filter]%list_elem_of_filter. done.
  - rewrite lookup_insert_ne by done. apply Hacc.
Qed.

(** C9, as the code has it.  For a merged frame that has the columns
    'exchange' and 'securityType' and whose every exchange can name a
    directory and every security type a file, the split returns and has
    written for every (exchange, security type) pair that occurs in the
    frame the file by_exchange/<exchange>/<type>.csv; the file holds
    exactly the rows of the frame with that exchange and that security
    type, and no symbol twice when the frame has none twice; no other file
    of the tree is touched.  Whatever the files are and however they read,
    what the consumer stores under the key of an (exchange, type) pair are
    records of that exchange and that type. *)
Theorem split_files_match_their_path
    (odd_dir : string -> DataFrame -> gmap (string * string) DataFrame
               -> option (gmap (string * string) DataFrame))
    (odd_file : string -> string -> DataFrame -> gmap (string * string) DataFrame
                -> option (gmap (string * string) DataFrame))
    (df : DataFrame) (w : World) :
  "exchange" ∈ columns df ->
  "securityType" ∈ columns df ->
  plain_names df ->
  NoDup (cell "symbol" <$> rows df) ->
  (exists w',
     split_symbols_by_exchange_and_type odd_dir odd_file (Some df) w = (Ret tt, w')
     /\ forall e t,
        ((exists r, r ∈ rows df /\ r !! "exchange" = Some e
                    /\ r !! "securityType" = Some t) ->
         exists file,
           split_files (disk w') !! (e, t) = Some file
           /\ (forall r, r ∈ rows file <->
                 r ∈ rows df /\ r !! "exchange" = Some e
                 /\ r !! "securityType" = Some t)
           /\ rows file `sublist_of` rows df
           /\ NoDup (cell "symbol" <$> rows file))
        /\ (~ (exists r, r ∈ rows df /\ r !! "exchange" = Some e
                        /\ r !! "securityType" = Some t) ->
            split_files (disk w') !! (e, t) = split_files (disk w) !! (e, t)))
  /\ (forall read_csv odd_glob tree
             (redis : gmap (string * string) (list SymbolRec)) targets k recs,
        process_and_store_symbols read_csv odd_glob tree redis targets !! k = Some recs ->
        redis !! k = Some recs \/ matches k recs).
Proof.
  intros Hex Hty Hplain Hnd. split.
  - exists (apply_writes (split_writes df) w). split; [by apply split_plain|].
    intros e t.
    rewrite (apply_writes_lookup _ (fun k => split_file df (fst k) (snd k))).
    2:{ intros [e' t'] v Hv. by apply split_writes_spec in Hv as [-> _]. }
    assert (Hiff : (e, t) ∈ (split_writes df).*1 <->
              exists r, r ∈ rows df /\ r !! "exchange" = Some e
                        /\ r !! "securityType" = Some t).
    { rewrite list_elem_of_fmap. split.
      - intros ([[e' t'] v] & [= -> ->] & Hv). by apply split_writes_spec in Hv as [_ ?].
      - intros Hr. exists ((e, t), split_file df e t). split; [done|].
        by apply split_writes_spec. }
    split; [intros Hr | intros Hnr].
    + rewrite decide_True by (by apply Hiff).
      eexists. split; [reflexivity|]. simpl.
      assert (Hsub : filter (fun r : SymbolRec => r !! "securityType" = Some t)
                       (filter (fun r : SymbolRec => r !! "exchange" = Some e) (rows df))
                     `sublist_of` rows df).
      { etrans; apply sublist_filter. }
      split; [|split; [exact Hsub|]].
      * intros r. rewrite !list_elem_of_filter. tauto.
      * eapply sublist_NoDup; [exact Hnd|]. by apply fmap_sublist.
    + rewrite decide_False; [done|]. by rewrite Hiff.
  - intros read_csv odd_glob tree redis targets. unfold process_and_store_symbols.
    apply (foldl_invariant
      (fun m : gmap (string * string) (list SymbolRec) =>
         forall k recs, m !! k = Some recs -> redis !! k = Some recs \/ matches k recs));
      [by left|].
    intros acc e _ Hacc.
    apply (foldl_invariant
      (fun m : gmap (string * string) (list SymbolRec) =>
         forall k recs, m !! k = Some recs -> redis !! k = Some recs \/ matches k recs));
      [exact Hacc|].
    intros acc' df' _ Hacc'. by apply process_csv_matches.
Qed.

Lemma two_exchanges_plain : plain_names two_exchanges.
Proof.
  intros r Hr. apply elem_of_cons in Hr as [->|Hr];
    [|apply list_elem_of_singleton in Hr as ->];
    (split; intros x Hx; vm_compute in Hx; injection Hx as <-; reflexivity).
Qed.

(** The file of NYSE equities of [two_exchanges]. *)
Lemma split_files_match_their_path_witness :
  exists w' file,
    split_symbols_by_exchange_and_type refuse_dir refuse_file (Some two_exchanges)
      fresh_world = (Ret tt, w')
    /\ split_files (disk w') !! ("NYSE", "EQUITY") = Some file
    /\ forall r, r ∈ rows file <->
         r ∈ rows two_exchanges /\ r !! "exchange" = Some "NYSE"
         /\ r !! "securityType" = Some "EQUITY".
Proof.
  destruct (split_files_match_their_path refuse_dir refuse_file two_exchanges fresh_world)
    as ((w' & Hsplit & Hfiles) & _).
  - compute_done.
  - compute_done.
  - exact two_exchanges_plain.
  - compute_done.
  - destruct (Hfiles "NYSE" "EQUITY") as (Hwritten & _).
    destruct Hwritten as (file & Hfile & Hrows & _).
    + exists (symbol_rec "A" "NYSE" "EQUITY"). split; [by left|]. split; reflexivity.
    + exists w', file. split; [exact Hsplit|]. split; [exact Hfile | exact Hrows].
Defined.

(** C9, as stated, fails: a frame with both columns whose one security
    type holds a path separator.  The directory by_exchange/NYSE/EQ is not
    there, [to_csv] raises OSError, and the pair has no file. *)
Lemma split_raises_on_path_separator :
  "exchange" ∈ columns slash_type
  /\ "securityType" ∈ columns slash_type
  /\ NoDup (cell "symbol" <$> rows slash_type)
  /\ (exists r, r ∈ rows slash_type /\ r !! "exchange" = Some "NYSE"
                /\ r !! "securityType" = Some "EQ/UITY")
  /\ split_symbols_by_exchange_and_type refuse_dir refuse_file (Some slash_type)
       fresh_world
     = (Raise (OSError "by_exchange"), fresh_world)
  /\ split_files (disk fresh_world) !! ("NYSE", "EQ/UITY") = None.
Proof.
  split; [compute_done|]. split; [compute_done|]. split; [compute_done|].
  split.
  - exists (symbol_rec "A" "NYSE" "EQ/UITY"). split; [by left|]. split; reflexivity.
  - split; vm_compute; reflexivity.
Qed.

(** ** One pass of the download loop *)

Section Engine.
Variable T : nat -> option string -> Outcome Response.
Hypothesis Hquiet : no_interrupt T.

Lemma search_default key w :
  exists w',
    search_symbols T key 3 5 w = (Ret (first_page T key (requests w) 3), w')
    /\ disk w' = disk w.
Proof.
  destruct (attempts_spec T key 3 5 ltac:(lia) 3 0 None w) as (w' & E & Hd & _);
    [lia | lia | intros i e _; apply Hquiet |].
  exists w'. split; [exact E | exact Hd].
Qed.

Variable delay : Z.
Hypothesis Hdelay : 0 <= delay.

Lemma iteration_spec s w :
  0 <= consecutive_errors s ->
  exists w',
    iteration T delay s w
    = (Ret (advance (first_page T (next_key s) (requests w) 3) s), w')
    /\ disk w' = persist (first_page T (next_key s) (requests w) 3) s (disk w).
Proof.
  intros Hce. unfold iteration.
  set (w0 := if 1 <? batch s
             then {| disk := disk w; requests := requests w;
                     slept := slept w ++ [delay]; log := log w |}
             else w).
  assert (E0 : (if 1 <? batch s then sleep delay else ret tt) w = (Ret tt, w0)).
  { unfold w0. destruct (1 <? batch s); [by apply sleep_ok | reflexivity]. }
  assert (Hw0 : requests w0 = requests w /\ disk w0 = disk w).
  { unfold w0. by destruct (1 <? batch s). }
  destruct Hw0 as [Hr0 Hd0].
  destruct (search_default (next_key s) w0) as (w1 & E1 & Hd1).
  unfold bind at 1. rewrite E0. unfold bind at 1. rewrite E1. rewrite Hr0.
  destruct (first_page T (next_key s) (requests w) 3) as [p|]; simpl.
  - destruct (symbolList p) as [|r rs] eqn:Esl.
    + unfold ret. eexists. split; [reflexivity|]. congruence.
    + unfold save_symbols_batch, write_state, bind, get_disk, put_disk, set_disk, ret. simpl.
      rewrite Hd1, Hd0.
      destruct (negb (hasMore p) || negb (bool_decide (is_Some (nextKey p)))).
      * eexists. split; reflexivity.
      * destruct (1000 <? batch s + 1); unfold bind, logger; simpl;
          eexists; split; reflexivity.
  - unfold max_consecutive_errors.
    destruct (3 <=? consecutive_errors s + 1); unfold bind, logger; simpl.
    + eexists. split; [reflexivity|]. simpl. congruence.
    + rewrite sleep_ok by lia. simpl. eexists. split; [reflexivity|]. simpl. congruence.
Qed.
End Engine.

(** ** The retry loop, attempt by attempt *)

Section PassExact.
Variable T : nat -> option string -> Outcome Response.
Variables (key : option string) (rc rd a : Z) (le : option ErrorDesc) (w : World).
Hypothesis Hrd : 0 <= rd.
Hypothesis Ha : 0 <= a.
Hypothesis Hexc : forall e, T (requests w) key = Raise e -> is_Exception e = true.

(** One pass of the loop of [search_symbols]: the world it leaves. *)
Lemma pass_exact :
  exists flow,
    try_except (attempt_try T key rc rd a le) (attempt_except rc rd a) w
    = (Ret flow,
       {| disk := disk w; requests := S (requests w);
          slept := slept w ++
                   (if a <? rc - 1
                    then option_list (backoff (T (requests w) key) rd a)
                    else []);
          log := log w |})
    /\ match page_of (T (requests w) key) with
       | Some d => flow = Return_ d
       | None => exists le1, flow = NextAttempt le1
       end.
Proof.
  assert (H1 : 0 <= rd * (a + 1)) by nia.
  assert (H2 : 0 <= rd * (a + 2)) by nia.
  unfold try_except, attempt_try, bind, session_get.
  destruct (T (requests w) key) as [r|e] eqn:ET; simpl.
  - destruct (status_code r =? 200) eqn:E200.
    + unfold response_json. destruct (json r) as [b|] eqn:EJ; simpl.
      * unfold ret at 1. simpl.
        destruct (body_data b) as [d|] eqn:ED; simpl.
        { eexists. split; [|reflexivity]. unfold ret. do 2 f_equal.
          destruct (a <? rc - 1); by rewrite app_nil_r. }
        destruct (body_errors b) as [errs|] eqn:EE; simpl.
        2:{ eexists. split; [|eauto]. unfold ret. do 2 f_equal.
            destruct (a <? rc - 1); by rewrite app_nil_r. }
        destruct (contains _ _); simpl.
        2:{ eexists. split; [|eauto]. unfold ret. do 2 f_equal.
            destruct (a <? rc - 1); by rewrite app_nil_r. }
        destruct (Z.ltb_spec a (rc - 1)); simpl.
        { unfold bind. rewrite sleep_ok by done. simpl. eexists. split; [reflexivity | eauto]. }
        eexists. split; [|eauto]. unfold ret. do 2 f_equal. by rewrite app_nil_r.
      * unfold raise; simpl. unfold attempt_except; simpl.
        destruct (Z.ltb_spec a (rc - 1)); simpl; unfold bind.
        { rewrite sleep_ok by done. simpl. eexists. split; [reflexivity | eauto]. }
        simpl. eexists. split; [|eauto]. unfold ret. do 2 f_equal. by rewrite app_nil_r.
    + destruct (Z.leb_spec 500 (status_code r)); simpl;
        [destruct (Z.ltb_spec a (rc - 1)); simpl|].
      * unfold bind. rewrite sleep_ok by done. simpl. eexists. split; [reflexivity | eauto].
      * eexists. split; [|eauto]. unfold ret. do 2 f_equal. by rewrite app_nil_r.
      * eexists. split; [|eauto]. unfold ret. do 2 f_equal.
        destruct (a <? rc - 1); by rewrite app_nil_r.
  - specialize (Hexc e eq_refl).
    unfold attempt_except.
    destruct e; simpl in *; try discriminate.
    all: destruct (Z.ltb_spec a (rc - 1)); simpl; unfold bind.
    all: try (rewrite sleep_ok by done); simpl.
    all: eexists; split; [|eauto]; unfold ret; try reflexivity.
    all: do 2 f_equal; by rewrite app_nil_r.
Qed.
End PassExact.

Lemma attempts_used_pos T key start n :
  (0 < attempts_used T key start (S n))%nat.
Proof. simpl. destruct (page_of (T start key)); lia. Qed.

Lemma attempts_used_le T key n : forall start,
  (attempts_used T key start n <= n)%nat.
Proof.
  induction n as [|n IH]; intros start; simpl; [lia|].
  destruct (page_of (T start key)); [lia|]. specialize (IH (S start)). lia.
Qed.

Lemma omap_seq_S {B} (f : nat -> option B) n : forall j,
  omap f (seq (S j) n) = omap (fun i => f (S i)) (seq j n).
Proof.
  induction n as [|n IH]; intros j; [done|].
  cbn [seq omap list_omap]. rewrite IH. done.
Qed.

Lemma omap_seq_0_S {B} (f : nat -> option B) u :
  omap f (seq 0 (S u)) = option_list (f 0%nat) ++ omap (fun i => f (S i)) (seq 0 u).
Proof.
  rewrite <- omap_seq_S. change (seq 0 (S u)) with (0%nat :: seq 1 u).
  csimpl. by destruct (f 0%nat).
Qed.

Section Schedule.
Variable T : nat -> option string -> Outcome Response.
Variables (key : option string) (rc rd : Z).
Hypothesis Hrd : 0 <= rd.

Lemma attempts_exact n : forall a le w,
  0 <= a -> a + Z.of_nat n = rc ->
  (forall i e, (i < n)%nat -> T (requests w + i)%nat key = Raise e -> is_Exception e = true) ->
  exists w',
    attempts T n key rc rd a le w = (Ret (first_page T key (requests w) n), w')
    /\ disk w' = disk w
    /\ requests w' = (requests w + attempts_used T key (requests w) n)%nat
    /\ slept w' = slept w ++
         omap (fun i : nat => backoff (T (requests w + i)%nat key) rd (a + Z.of_nat i))
              (seq 0 (attempts_used T key (requests w) n - 1)).
Proof.
  induction n as [|n IH]; intros a le w Ha Hn Hexc.
  - simpl. unfold bind, logger, ret; simpl. eexists. repeat split; simpl; auto.
    by rewrite app_nil_r.
  - destruct (pass_exact T key rc rd a le w Hrd Ha) as (flow & Ep & Hflow).
    { intros e He. apply (Hexc 0%nat); [lia|]. by rewrite Nat.add_0_r. }
    cbn [attempts first_page attempts_used]. unfold bind at 1. rewrite Ep.
    destruct (page_of (T (requests w) key)) as [d|] eqn:Epage.
    + subst flow. unfold ret. eexists. split; [reflexivity|]. simpl.
      split; [done|]. split; [lia|].
      destruct (a <? rc - 1); [|done].
      assert (Hb : backoff (T (requests w) key) rd a = None); [|by rewrite Hb].
      unfold page_of, backoff in *.
      destruct (T (requests w) key) as [r|e]; [|done].
      destruct (status_code r =? 200); [|done].
      destruct (json r) as [b|]; [|done]. by rewrite Epage.
    + destruct Hflow as (le1 & ->).
      lazymatch goal with
      | |- context [attempts _ _ _ _ _ _ _ ?w1] =>
        destruct (IH (a + 1) le1 w1) as (w' & Ea & Hd & Hreq & Hsl); [lia | lia | |]
      end.
      { intros i e Hi. cbn [requests].
        replace (S (requests w) + i)%nat with (requests w + S i)%nat by lia.
        apply Hexc. lia. }
      cbn [requests disk slept] in *.
      exists w'. split; [exact Ea|]. split; [exact Hd|]. split; [lia|].
      rewrite Hsl. clear Ea Hsl Hreq IH.
      destruct n as [|n'].
      * simpl. destruct (Z.ltb_spec a (rc - 1)); [lia|]. by rewrite !app_nil_r.
      * pose proof (attempts_used_pos T key (S (requests w)) n') as Hpos.
        destruct (attempts_used T key (S (requests w)) (S n')) as [|u]; [lia|].
        destruct (Z.ltb_spec a (rc - 1)); [|lia].
        replace (S (S u) - 1)%nat with (S u) by lia.
        replace (S u - 1)%nat with u by lia.
        rewrite <- app_assoc. f_equal.
        rewrite omap_seq_0_S. rewrite Nat.add_0_r, Z.add_0_r.
        assert (Htail :
          omap (fun i : nat => backoff (T (S (requests w) + i)%nat key) rd
                                 (a + 1 + Z.of_nat i)) (seq 0 u)
          = omap (fun i : nat => backoff (T (requests w + S i)%nat key) rd
                                 (a + Z.of_nat (S i))) (seq 0 u)).
        { apply list_omap_ext, Forall2_same_length_lookup_2; [done|].
          intros i x y Hx Hy. rewrite Hx in Hy. injection Hy as <-.
          replace (requests w + S x)%nat with (S (requests w) + x)%nat by lia.
          replace (a + Z.of_nat (S x)) with (a + 1 + Z.of_nat x) by lia. done. }
        by rewrite Htail.
Qed.
End Schedule.

(** ** A pass whose fetch fails *)

Lemma attempts_used_failed T key n : forall start,
  first_page T key start n = None -> attempts_used T key start n = n.
Proof.
  induction n as [|n IH]; intros start; simpl; [done|].
  destruct (page_of (T start key)); [done|]. intros H. by rewrite IH.
Qed.

Section FailedPass.
Variable T : nat -> option string -> Outcome Response.
Hypothesis Hquiet : no_interrupt T.
Variable delay : Z.
Hypothesis Hdelay : 0 <= delay.

Lemma iteration_failed s w :
  0 <= consecutive_errors s ->
  first_page T (next_key s) (requests w) 3 = None ->
  exists w1,
    iteration T delay s w = (Ret (advance None s), w1)
    /\ disk w1 = disk w
    /\ requests w1 = (requests w + 3)%nat
    /\ slept w1
       = slept w ++ (if 1 <? batch s then [delay] else [])
           ++ backoff_schedule T (next_key s) 5 (requests w) 3
           ++ (if max_consecutive_errors <=? consecutive_errors s + 1 then []
               else [30 * (consecutive_errors s + 1)]).
Proof.
  intros Hce Hfail. unfold iteration.
  set (w0 := if 1 <? batch s
             then {| disk := disk w; requests := requests w;
                     slept := slept w ++ [delay]; log := log w |}
             else w).
  assert (E0 : (if 1 <? batch s then sleep delay else ret tt) w = (Ret tt, w0)).
  { unfold w0. destruct (1 <? batch s); [by apply sleep_ok | reflexivity]. }
  assert (Hw0 : requests w0 = requests w /\ disk w0 = disk w
                /\ slept w0 = slept w ++ (if 1 <? batch s then [delay] else [])).
  { unfold w0. destruct (1 <? batch s); simpl; by rewrite ?app_nil_r. }
  destruct Hw0 as (Hr0 & Hd0 & Hs0).
  destruct (attempts_exact T (next_key s) 3 5 ltac:(lia) 3 0 None w0)
    as (w1 & E1 & Hd1 & Hr1 & Hs1); [lia | lia | intros i e _; apply Hquiet |].
  rewrite Hr0 in *. rewrite Hfail in E1.
  rewrite (attempts_used_failed _ _ _ _ Hfail) in Hr1, Hs1.
  unfold bind at 1. rewrite E0. unfold bind at 1.
  unfold search_symbols. change (Z.to_nat 3) with 3%nat. rewrite E1.
  unfold advance, max_consecutive_errors.
  destruct (3 <=? consecutive_errors s + 1); unfold bind, logger; simpl.
  - eexists. split; [reflexivity|]. simpl. split; [congruence|]. split; [done|].
    rewrite Hs1, Hs0, app_nil_r, <- app_assoc. done.
  - rewrite sleep_ok by lia. simpl. eexists. split; [reflexivity|]. simpl.
    split; [congruence|]. split; [done|].
    rewrite Hs1, Hs0, <- !app_assoc. done.
Qed.
End FailedPass.

(** ** Termination of the download loop *)

Section Loop.
Variable T : nat -> option string -> Outcome Response.
Variable delay : Z.

(** A pass that does not break either failed, with fewer than three
    failures in a row so far, or completed a batch below the ceiling. *)
Lemma iteration_continue s w s1 w1 :
  iteration T delay s w = (Ret (s1, None), w1) ->
  (batch s1 = batch s /\ consecutive_errors s1 = consecutive_errors s + 1
   /\ consecutive_errors s1 < 3)
  \/ (batch s1 = batch s + 1 /\ batch s1 <= 1000 /\ consecutive_errors s1 = 0).
Proof.
  unfold iteration, bind.
  destruct ((if 1 <? batch s then sleep delay else ret tt) w) as [[[]|e0] w0]; [|done].
  destruct (search_symbols T (next_key s) 3 5 w0) as [[[p|]|e1] w0']; [| |done].
  - destruct (symbolList p) as [|r rs]; [done|].
    unfold save_symbols_batch, write_state, bind, get_disk, put_disk, ret; simpl.
    destruct (negb (hasMore p) || negb (bool_decide (is_Some (nextKey p)))); [done|].
    destruct (Z.ltb_spec 1000 (batch s + 1)); unfold bind, logger; simpl; [done|].
    intros [= <- _]. right. simpl. lia.
  - unfold max_consecutive_errors.
    destruct (Z.leb_spec 3 (consecutive_errors s + 1)); unfold bind, logger; simpl; [done|].
    destruct (sleep _ _) as [[[]|e2] w2]; [|done].
    unfold ret. intros [= <- _]. left. simpl. lia.
Qed.





Lemma while_true_mono n : forall m s w s' stop w',
  while_true T n delay s w = (Ret (s', Some stop), w') ->
  (n <= m)%nat ->
  while_true T m delay s w = (Ret (s', Some stop), w').
Proof.
  induction n as [|n IH]; intros m s w s' stop w' Hrun Hle; [done|].
  destruct m as [|m]; [lia|].
  simpl in *. unfold bind in *.
  destruct (iteration T delay s w) as [[[s1 [st|]]|e] w1]; simpl in *; [done| |done].
  apply IH; [done | lia].
Qed.

Hypothesis Hquiet : no_interrupt T.
Hypothesis Hdelay : 0 <= delay.
Hypothesis Hpages : forall n key, is_Some (first_page T key n 3).

End Loop.


Section Recovering.
Variable T : nat -> option string -> Outcome Response.
Variable delay : Z.
Hypothesis Hquiet : no_interrupt T.
Hypothesis Hdelay : 0 <= delay.


(** No nine GETs in a row go without a page: no fetch fails three times
    in a row. *)
Hypothesis Hnine : forall n key, is_Some (first_page T key n 9).


End Recovering.




(** ** Resuming *)

Section Run.
Variable fetch : option string -> option Page.

Lemma run_mono n : forall m s s' stop,
  run fetch n s = (s', Some stop) -> (n <= m)%nat -> run fetch m s = (s', Some stop).
Proof.
  induction n as [|n IH]; intros m s s' stop Hrun Hle; [done|].
  destruct m as [|m]; [lia|]. simpl in *.
  destruct (advance (fetch (next_key s)) s) as [s1 [st|]]; simpl in *; [done|].
  apply IH; [done | lia].
Qed.

Lemma run_agree n m s s1 st1 s2 st2 :
  run fetch n s = (s1, Some st1) -> run fetch m s = (s2, Some st2) ->
  s1 = s2.
Proof.
  intros H1 H2.
  apply (run_mono n (n `max` m)) in H1; [|lia].
  apply (run_mono m (n `max` m)) in H2; [|lia]. congruence.
Qed.

Lemma run_split j : forall s sj m,
  run fetch j s = (sj, None) -> run fetch (j + m) s = run fetch m sj.
Proof.
  induction j as [|j IH]; intros s sj m Hrun; simpl in *; [congruence|].
  destruct (advance (fetch (next_key s)) s) as [s1 [st|]]; simpl in *; [done|].
  by apply IH.
Qed.

Lemma run_stops fuel : forall s,
  0 <= consecutive_errors s < 3 ->
  (3 * Z.to_nat (1001 - batch s) + Z.to_nat (3 - consecutive_errors s) <= fuel)%nat ->
  exists s' stop, run fetch fuel s = (s', Some stop).
Proof.
  induction fuel as [|fuel IH]; intros s Hce Hfuel; [lia|]. simpl.
  destruct (advance (fetch (next_key s)) s) as [s1 [st|]] eqn:Eadv; simpl; [eauto|].
  apply IH.
  all: unfold advance, max_consecutive_errors in Eadv.
  all: destruct (fetch (next_key s)) as [p|];
    [destruct (symbolList p); [done|];
     destruct (negb (hasMore p) || negb (bool_decide (is_Some (nextKey p)))); [done|];
     destruct (Z.ltb_spec 1000 (batch s + 1)); [done|]
    |destruct (Z.leb_spec 3 (consecutive_errors s + 1)); [done|]];
    injection Eadv as <-; simpl; lia.
Qed.

(** While the fetch of the current cursor fails, the frames stay. *)
Lemma run_failing fuel : forall s,
  fetch (next_key s) = None ->
  all_dataframes (fst (run fetch fuel s)) = all_dataframes s.
Proof.
  induction fuel as [|fuel IH]; intros s Hf; [done|]. simpl. rewrite Hf. simpl.
  destruct (max_consecutive_errors <=? consecutive_errors s + 1); simpl; [done|].
  by rewrite IH.
Qed.

(** The count of failures in a row does not bear on the frames a run
    ends with. *)
Lemma run_reset_errors n m s s1 st1 s2 st2 :
  run fetch n s = (s1, Some st1) ->
  run fetch m (reset_errors s) = (s2, Some st2) ->
  all_dataframes s1 = all_dataframes s2.
Proof.
  intros H1 H2.
  destruct (fetch (next_key s)) as [p|] eqn:Ef.
  - destruct n as [|n]; [done|]. destruct m as [|m]; [done|].
    simpl in H1, H2. rewrite Ef in H1, H2.
    assert (Hadv : advance (Some p) (reset_errors s) = advance (Some p) s).
    { unfold advance, reset_errors. simpl. reflexivity. }
    rewrite Hadv in H2.
    destruct (advance (Some p) s) as [s' [st|]]; simpl in *; [congruence|].
    by rewrite (run_agree _ _ _ _ _ _ _ H1 H2).
  - pose proof (run_failing n s Ef) as E1. rewrite H1 in E1.
    pose proof (run_failing m (reset_errors s) Ef) as E2. rewrite H2 in E2.
    simpl in *. congruence.
Qed.
End Run.

Lemma total_len_snoc dfs df : total_len (dfs ++ [df]) = total_len dfs + len df.
Proof. unfold total_len. induction dfs as [|x dfs IH]; simpl; lia. Qed.

Lemma load_previous_spec read_csv range : forall acc w,
  load_previous read_csv range acc w
  = match read_all read_csv (omap (fun i : Z => batch_files (disk w) !! i) range) with
    | Ret dfs => (Ret (fst acc ++ dfs, snd acc + total_len dfs), w)
    | Raise e => (Raise e, w)
    end.
Proof.
  induction range as [|i range IH]; intros [dfs tot] w; csimpl.
  - unfold ret. simpl. by rewrite app_nil_r, Z.add_0_r.
  - unfold bind, get_disk. simpl.
    destruct (batch_files (disk w) !! i) as [file|]; simpl; [|apply IH].
    unfold lift. destruct (read_csv file) as [df|e]; [|done].
    rewrite IH. destruct (read_all read_csv _) as [dfs'|e]; [|done].
    simpl. rewrite <- app_assoc. simpl.
    by replace (tot + len df + total_len dfs') with (tot + (len df + total_len dfs')) by lia.
Qed.

Lemma existing_on_disk d dfs :
  frames_on_disk d dfs -> existing_batches d (1 + Z.of_nat (length dfs)) = dfs.
Proof.
  unfold existing_batches.
  replace (1 + Z.of_nat (length dfs) - 1) with (Z.of_nat (length dfs)) by lia.
  induction dfs as [|df dfs IH] using rev_ind; intros Hd; [done|].
  rewrite length_app. simpl. rewrite Nat.add_1_r, seqZ_S, omap_app. simpl.
  rewrite IH.
  - specialize (Hd (length dfs)). rewrite length_app in Hd. simpl in Hd.
    rewrite Hd by lia. rewrite lookup_app_r by lia. by rewrite Nat.sub_diag.
  - intros i Hi. rewrite Hd by (rewrite length_app; simpl; lia).
    by rewrite lookup_app_l.
Qed.

Lemma read_all_back read_csv dfs :
  (forall df, df ∈ dfs -> read_csv df = Ret df) -> read_all read_csv dfs = Ret dfs.
Proof.
  induction dfs as [|df dfs IH]; intros Hback; simpl; [done|].
  rewrite Hback by (by left). rewrite IH; [done|].
  intros df' Hdf'. apply Hback. by right.
Qed.

Lemma checkpointed_fresh d : checkpointed fresh_loop d.
Proof.
  unfold checkpointed, frames_on_disk. simpl. repeat split; try done.
  intros i Hi. lia.
Qed.

Lemma checkpointed_advance res s d s1 :
  checkpointed s d -> advance res s = (s1, None) -> checkpointed s1 (persist res s d).
Proof.
  intros (Hlen & Hfr & Htot & Hce & H1 & Hn1) Hadv.
  unfold advance, persist, max_consecutive_errors in *.
  destruct res as [p|].
  - destruct (symbolList p) as [|r rs] eqn:Esl; [done|].
    destruct (negb (hasMore p) || negb (bool_decide (is_Some (nextKey p)))); [done|].
    destruct (Z.ltb_spec 1000 (batch s + 1)); [done|].
    injection Hadv as <-. unfold checkpointed. simpl.
    split; [rewrite length_app; simpl; lia|].
    split; [|split; [|split; [lia|split; [lia|]]]].
    + intros i Hi. rewrite length_app in Hi. simpl in Hi. cbn [batch_files].
      destruct (decide (i = length (all_dataframes s))) as [->|Hne].
      * replace (1 + Z.of_nat (length (all_dataframes s))) with (batch s) by lia.
        rewrite lookup_insert_eq, lookup_app_r by lia. by rewrite Nat.sub_diag.
      * rewrite lookup_insert_ne by lia. rewrite lookup_app_l by lia. apply Hfr. lia.
    + rewrite total_len_snoc. unfold len, DataFrame_of. cbn [rows length]. rewrite Htot. lia.
    + intros _. eexists. split; [reflexivity|]. done.
  - destruct (Z.leb_spec 3 (consecutive_errors s + 1)); [done|].
    injection Hadv as <-. unfold checkpointed. simpl.
    split; [done|]. split; [done|]. split; [done|]. split; [lia|]. by split.
Qed.

Section FreshRun.
Variable T : nat -> option string -> Outcome Response.
Hypothesis Hquiet : no_interrupt T.
Variable delay : Z.
Hypothesis Hdelay : 0 <= delay.

Lemma while_true_checkpointed j : forall s w sj wj,
  checkpointed s (disk w) ->
  while_true T j delay s w = (Ret (sj, None), wj) ->
  checkpointed sj (disk wj).
Proof.
  induction j as [|j IH]; intros s w sj wj Hinv Hrun.
  - simpl in Hrun. unfold ret in Hrun. by injection Hrun as <- <-.
  - simpl in Hrun. unfold bind in Hrun.
    destruct (iteration_spec T Hquiet delay Hdelay s w) as (w1 & Eit & Hd1);
      [apply Hinv|].
    rewrite Eit in Hrun.
    destruct (advance _ s) as [s1 [st|]] eqn:Eadv; simpl in Hrun; [done|].
    eapply IH; [|exact Hrun]. rewrite Hd1. by eapply checkpointed_advance.
Qed.
End FreshRun.

(** Restarting at the batch after the last checkpoint restores the loop
    variables, but for the count of failures. *)
Lemma init_loop_resume read_csv s d w :
  checkpointed s d ->
  (forall i, 1 <= i < batch s -> batch_files (disk w) !! i = batch_files d !! i) ->
  state_file (disk w) = state_file d ->
  (forall df, df ∈ all_dataframes s -> read_csv df = Ret df) ->
  init_loop read_csv (Some (batch s)) w = (Ret (reset_errors s), w).
Proof.
  intros (Hlen & Hfr & Htot & Hce & H1 & Hn1) Hbf Hsf Hback.
  unfold init_loop. destruct (Z.ltb_spec 1 (batch s)) as [Hgt|Hle].
  - unfold bind. rewrite load_previous_spec.
    assert (Hex : omap (fun i : Z => batch_files (disk w) !! i) (seqZ 1 (batch s - 1))
                  = all_dataframes s).
    { change (existing_batches (disk w) (batch s) = all_dataframes s).
      replace (batch s) with (1 + Z.of_nat (length (all_dataframes s))) by lia.
      apply existing_on_disk.
      intros i Hi. rewrite Hbf by lia. by apply Hfr. }
    rewrite Hex, (read_all_back _ _ Hback). unfold get_disk, ret. simpl.
    destruct (Hn1 ltac:(lia)) as (st & Est & Hk & Hr).
    rewrite Hsf, Est. simpl. destruct (Z.eqb_spec (batch s) 0); [lia|].
    unfold reset_errors. by rewrite Hk, Hr, Htot.
  - assert (Hb : batch s = 1) by lia. destruct (H1 Hb) as [Hk Hr].
    unfold ret, reset_errors. rewrite Hb. simpl.
    destruct (all_dataframes s) as [|? ?] eqn:Edf; [|simpl in Hlen; lia].
    rewrite Htot, Hk, Hr. reflexivity.
Qed.

Lemma first_page_const (B : option string -> Outcome Response) key start n :
  first_page (fun _ => B) key start (S n) = page_of (B key).
Proof.
  revert start. induction n as [|n IH]; intros start.
  - simpl. by destruct (page_of (B key)).
  - change (first_page (λ _, B) key start (S (S n)))
      with (match page_of (B key) with
            | Some d => Some d
            | None => first_page (λ _, B) key (S start) (S n)
            end).
    rewrite IH. by destruct (page_of (B key)).
Qed.

Lemma advance_errors res s s1 o :
  0 <= consecutive_errors s -> advance res s = (s1, o) -> 0 <= consecutive_errors s1.
Proof.
  unfold advance. intros Hce Hadv.
  destruct res as [p|];
    [destruct (symbolList p);
       [|destruct (negb (hasMore p) || negb (bool_decide (is_Some (nextKey p))))]|];
    injection Hadv as <- _; simpl; lia.
Qed.

Lemma combine_results_fst dfs w : fst (combine_results dfs w) = merged dfs.
Proof.
  unfold combine_results, merged. destruct dfs as [|df dfs]; [reflexivity|].
  unfold bind, pd_concat, ret, drop_duplicates.
  destruct (bool_decide ("symbol" ∈ columns (concat_frames (df :: dfs)))); reflexivity.
Qed.

Section FixedBackend.
Variable B : option string -> Outcome Response.
Hypothesis HquietB : forall key e, B key = Raise e -> is_Exception e = true.
Variable delay : Z.
Hypothesis Hdelay : 0 <= delay.

Lemma fixed_quiet : no_interrupt (fixed_backend B).
Proof. intros n key e. apply HquietB. Qed.

Lemma while_true_run fuel : forall s w,
  0 <= consecutive_errors s ->
  exists w',
    while_true (fixed_backend B) fuel delay s w = (Ret (run (fetch_of B) fuel s), w').
Proof.
  induction fuel as [|fuel IH]; intros s w Hce; cbn [while_true run];
    [unfold ret; eauto|].
  destruct (iteration_spec (fixed_backend B) fixed_quiet delay Hdelay s w Hce)
    as (w1 & Eit & _).
  assert (Hf : first_page (fixed_backend B) (next_key s) (requests w) 3
               = fetch_of B (next_key s))
    by exact (first_page_const B (next_key s) (requests w) 2).
  rewrite Hf in Eit. unfold bind. rewrite Eit.
  destruct (advance (fetch_of B (next_key s)) s) as [s1 [st|]] eqn:Eadv; simpl;
    [unfold ret; eauto|].
  apply IH. by eapply advance_errors.
Qed.

Lemma download_fst read_csv resume w s0 w0 :
  init_loop read_csv resume w = (Ret s0, w0) ->
  0 <= consecutive_errors s0 ->
  fst (download_all_symbols (fixed_backend B) read_csv delay resume w)
  = merged (all_dataframes (fst (run (fetch_of B) (loop_bound s0) s0))).
Proof.
  intros Hinit Hce. unfold download_all_symbols, bind. rewrite Hinit.
  destruct (while_true_run (loop_bound s0) s0 w0 Hce) as (w1 & ->).
  apply combine_results_fst.
Qed.
End FixedBackend.

(** ** Resuming without a state file *)

Lemma advance_frames res s :
  all_dataframes s `prefix_of` all_dataframes (fst (advance res s)).
Proof.
  unfold advance.
  destruct res as [p|];
    [destruct (symbolList p);
       [|destruct (negb (hasMore p) || negb (bool_decide (is_Some (nextKey p))))]|];
    simpl; try done; by apply prefix_app_r.
Qed.

Section Frames.
Variable T : nat -> option string -> Outcome Response.
Hypothesis Hquiet : no_interrupt T.
Variable delay : Z.
Hypothesis Hdelay : 0 <= delay.

(** Without interrupts the loop does not raise, and it only ever appends
    to [all_dataframes]. *)
Lemma while_true_frames fuel : forall s w,
  0 <= consecutive_errors s ->
  exists s' o w',
    while_true T fuel delay s w = (Ret (s', o), w')
    /\ all_dataframes s `prefix_of` all_dataframes s'.
Proof.
  induction fuel as [|fuel IH]; intros s w Hce; cbn [while_true].
  - unfold ret. by eexists _, _, _.
  - destruct (iteration_spec T Hquiet delay Hdelay s w Hce) as (w1 & Eit & _).
    unfold bind. rewrite Eit.
    pose proof (advance_frames (first_page T (next_key s) (requests w) 3) s) as Hpre.
    destruct (advance _ s) as [s1 [st|]] eqn:Eadv; simpl in *.
    + unfold ret. by eexists _, _, _.
    + destruct (IH s1 w1) as (s' & o & w' & Erun & Hpre'); [by eapply advance_errors|].
      eexists _, _, _. split; [exact Erun|]. by etrans.
Qed.
End Frames.

Lemma combine_results_spec dfs w :
  dfs <> [] -> "symbol" ∈ columns (concat_frames dfs) ->
  exists w',
    combine_results dfs w
    = (Ret (Some {| columns := columns (concat_frames dfs);
                    rows := drop_dups "symbol" [] (rows (concat_frames dfs)) |}), w')
    /\ state_file (disk w') = None
    /\ latest_file (disk w')
       = Some {| columns := columns (concat_frames dfs);
                 rows := drop_dups "symbol" [] (rows (concat_frames dfs)) |}
    /\ batch_files (disk w') = batch_files (disk w).
Proof.
  intros Hne Hcol. destruct dfs as [|df dfs]; [done|].
  unfold combine_results, bind, pd_concat, ret, drop_duplicates.
  rewrite bool_decide_true by done.
  unfold ret, get_disk, put_disk, set_disk. simpl. eexists. repeat split.
Qed.

(** ** Abort, and interrupts in main *)

(** C1 (the code departs from it).  A fresh run gets the first page and then
    only 503s.  The loop breaks by the abort, with the state file naming
    batch 2 and the hint to resume in the log; yet the run goes on to write
    the merged file and to remove the state file, and returns the merged
    frame. *)
Theorem abort_after_first_batch_removes_checkpoint
    (read_csv : DataFrame -> Outcome DataFrame) :
  let T := fixed_backend backend_then_down in
  let merged_df :=
    {| columns := columns (DataFrame_of (symbolList page_one));
       rows := symbolList page_one |} in
  (exists sf wf,
     while_true T (loop_bound fresh_loop) 2 fresh_loop fresh_world
     = (Ret (sf, Some Aborted), wf)
     /\ consecutive_errors sf = max_consecutive_errors
     /\ state_file (disk wf)
        = Some (Readable {| st_batch := 2; st_next_key := Some "k1";
                            st_total_symbols := 1; st_total_reported := 2 |})
     /\ latest_file (disk wf) = None
     /\ last (log wf) = Some ResumeLaterHint)
  /\ fst (download_all_symbols T read_csv 2 None fresh_world) = Ret (Some merged_df)
  /\ state_file (disk (snd (download_all_symbols T read_csv 2 None fresh_world))) = None
  /\ latest_file (disk (snd (download_all_symbols T read_csv 2 None fresh_world)))
     = Some merged_df.
Proof.
  cbv zeta. split.
  - eexists _, _. split; [vm_compute; reflexivity|]. vm_compute. repeat split.
  - vm_compute. repeat split.
Qed.

(** C3 (the code departs from it).  When the download is interrupted by
    Ctrl-C, [main] runs its KeyboardInterrupt clause and then, in the
    finally clause, reads [result_df], which was never assigned: the
    UnboundLocalError leaves [main]. *)
Theorem main_interrupted_raises_unbound_local
    (read_csv : DataFrame -> Outcome DataFrame)
    (odd_dir : string -> DataFrame -> gmap (string * string) DataFrame
               -> option (gmap (string * string) DataFrame))
    (odd_file : string -> string -> DataFrame -> gmap (string * string) DataFrame
                -> option (gmap (string * string) DataFrame)) :
  fst (download_all_symbols interrupted read_csv 2 None fresh_world)
  = Raise KeyboardInterrupt
  /\ fst (main interrupted read_csv odd_dir odd_file None 2 fresh_world)
     = Raise (UnboundLocalError "result_df")
  /\ log (snd (main interrupted read_csv odd_dir odd_file None 2 fresh_world))
     = [InterruptedByUser].
Proof. vm_compute. repeat split. Qed.

(** ** Resuming, when a cell does not read back *)

(** C4 (the code departs from it).  The backend has the ticker NA on its
    first page.  A fresh run is stopped after its first pass, with batch 1
    and the state file on disk, and restarted with resume_from_batch = 2.
    [pd.read_csv] takes the cell 'NA' of batch_1.csv for a missing value:
    the run that was not interrupted returns the symbols NA and B, the
    resumed one returns, and writes as the merged file, a record without
    symbol in the place of NA. *)
Theorem resumed_run_loses_symbol_NA :
  let T := fixed_backend backend_na in
  let stopped := while_true T 1 2 fresh_loop fresh_world in
  (exists s1, fst stopped = Ret (s1, None) /\ batch s1 = 2)
  /\ batch_files (disk (snd stopped)) !! 1 = Some (DataFrame_of (symbolList page_na))
  /\ state_file (disk (snd stopped))
     = Some (Readable {| st_batch := 2; st_next_key := Some "k1";
                         st_total_symbols := 1; st_total_reported := 2 |})
  /\ (exists out,
        fst (download_all_symbols T read_na 2 None fresh_world) = Ret (Some out)
        /\ rows out = [symbol_rec "NA" "NASDAQ" "EQUITY"; symbol_rec "B" "CME" "FUTURE"])
  /\ (exists out,
        fst (download_all_symbols T read_na 2 (Some 2) (snd stopped)) = Ret (Some out)
        /\ rows out = [na_read_back; symbol_rec "B" "CME" "FUTURE"]
        /\ latest_file (disk (snd (download_all_symbols T read_na 2 (Some 2)
                                     (snd stopped))))
           = Some out)
  /\ na_read_back !! "symbol" = None.
Proof.
  cbv zeta. split; [eexists; split; vm_compute; reflexivity|].
  split; [vm_compute; reflexivity|]. split; [vm_compute; reflexivity|].
  split; [eexists; split; vm_compute; reflexivity|].
  split; [|reflexivity].
  eexists. split; [vm_compute; reflexivity|]. split; vm_compute; reflexivity.
Qed.

(** C10 (the code departs from it).  The directory holds the first page,
    with the ticker NA, as batch 1, and no state file; the run is resumed
    at batch 2.  The cursor stays None, the first page is fetched again and
    saved as batch 2.  Its record is then twice in the merged frame: once
    as [pd.read_csv] gave it back from batch_1.csv, without symbol, and
    once as it was fetched, which the removal of duplicate symbols does not
    tell apart. *)
Theorem resume_without_state_keeps_both_copies :
  let T := fixed_backend backend_na in
  let run := download_all_symbols T read_na 2 (Some 2) world_without_state_na in
  (exists s0,
     init_loop read_na (Some 2) world_without_state_na = (Ret s0, world_without_state_na)
     /\ next_key s0 = None /\ batch s0 = 2)
  /\ batch_files (disk (snd run)) !! 1 = Some (DataFrame_of (symbolList page_na))
  /\ batch_files (disk (snd run)) !! 2 = Some (DataFrame_of (symbolList page_na))
  /\ exists out,
       fst run = Ret (Some out)
       /\ rows out = [na_read_back; symbol_rec "NA" "NASDAQ" "EQUITY";
                      symbol_rec "B" "CME" "FUTURE"]
       /\ length (with_cell "exchange" (Some "NASDAQ") (rows out)) = 2%nat.
Proof.
  cbv zeta. split; [eexists; split; [vm_compute; reflexivity | split; reflexivity]|].
  split; [vm_compute; reflexivity|]. split; [vm_compute; reflexivity|].
  eexists. split; [vm_compute; reflexivity|]. split; vm_compute; reflexivity.
Qed.

(** * Further properties *)

(** ** The result of a call and its waits *)

(** X1. Without interrupts and with a non-negative delay, a call of
    [search_symbols] returns the first page delivered among its
    [retry_count] attempts (None if there is none), issues GETs up to that
    page and no further, leaves the disk alone and sleeps, after each failed
    attempt but the last of the call, what the kind of failure asks for:
    retry_delay * (i + 1) after a status of 500 or more or a connection error,
    retry_delay * (i + 2) after a backend-busy message, retry_delay after a
    timeout or any other exception, nothing after another status or
    message. *)
Theorem search_symbols_result_and_schedule
    (T : nat -> option string -> Outcome Response)
    (key : option string) (retry_count retry_delay : Z) (w : World) :
  0 <= retry_delay ->
  (forall i e, (i < Z.to_nat retry_count)%nat ->
     T (requests w + i)%nat key = Raise e -> is_Exception e = true) ->
  exists w',
    search_symbols T key retry_count retry_delay w
    = (Ret (first_page T key (requests w) (Z.to_nat retry_count)), w')
    /\ disk w' = disk w
    /\ requests w'
       = (requests w + attempts_used T key (requests w) (Z.to_nat retry_count))%nat
    /\ slept w'
       = slept w ++ backoff_schedule T key retry_delay (requests w)
                      (attempts_used T key (requests w) (Z.to_nat retry_count)).
Proof.
  intros Hrd Hexc. unfold search_symbols, backoff_schedule.
  destruct (Z.le_gt_cases retry_count 0) as [Hle|Hgt].
  - replace (Z.to_nat retry_count) with 0%nat by lia.
    simpl. unfold bind, logger, ret. simpl. eexists. repeat split; simpl; auto.
    by rewrite app_nil_r.
  - destruct (attempts_exact T key retry_count retry_delay Hrd (Z.to_nat retry_count)
                0 None w) as (w' & Ea & Hd & Hreq & Hsl); [lia | lia | exact Hexc |].
    exists w'. split; [exact Ea|]. split; [exact Hd|]. split; [exact Hreq|].
    rewrite Hsl. f_equal.
Qed.

(** The page comes at the third attempt, after waits of 10 and 15 seconds. *)
Lemma search_symbols_result_and_schedule_witness :
  exists w',
    search_symbols busy_twice None 3 5 fresh_world = (Ret (Some page_one), w')
    /\ requests w' = 3%nat
    /\ slept w' = [10; 15].
Proof.
  destruct (search_symbols_result_and_schedule busy_twice None 3 5 fresh_world)
    as (w' & E & _ & Hr & Hs).
  - lia.
  - intros i e _ He. unfold busy_twice in He. destruct (_ <? _)%nat; discriminate He.
  - exists w'. split; [exact E|]. split; [exact Hr | exact Hs].
Defined.

(** ** What a call does whatever the transport does *)

Section PassAny.
Variable T : nat -> option string -> Outcome Response.
Variables (key : option string) (rc rd a : Z) (le : option ErrorDesc) (w : World).

Lemma pass_any :
  exists o w1,
    try_except (attempt_try T key rc rd a le) (attempt_except rc rd a) w = (o, w1)
    /\ disk w1 = disk w /\ requests w1 = S (requests w) /\ log w1 = log w
    /\ exists l, slept w1 = slept w ++ l
                 /\ (length l <= if (a <? rc - 1)%Z then 1 else 0)%nat.
Proof.
  unfold try_except, attempt_try, attempt_except, bind, session_get, response_json,
    ret, raise, sleep.
  destruct (T (requests w) key) as [r|e]; simpl.
  - destruct (status_code r =? 200).
    + destruct (json r) as [b|]; simpl.
      * destruct (body_data b); simpl;
          [eexists _, _; repeat split; exists []; rewrite app_nil_r; split;
             [done | simpl; destruct (a <? rc - 1); lia]|].
        destruct (body_errors b); simpl;
          [|eexists _, _; repeat split; exists []; rewrite app_nil_r; split;
             [done | simpl; destruct (a <? rc - 1); lia]].
        destruct (contains _ _); simpl;
          [|eexists _, _; repeat split; exists []; rewrite app_nil_r; split;
             [done | simpl; destruct (a <? rc - 1); lia]].
        destruct (a <? rc - 1); simpl;
          [|eexists _, _; repeat split; exists []; rewrite app_nil_r; split;
             [done | simpl; lia]].
        destruct (rd * (a + 2) <? 0); simpl.
        -- destruct (rd <? 0); simpl; eexists _, _; repeat split;
             [exists [] | exists [rd]]; simpl; rewrite ?app_nil_r; split; (done || lia).
        -- eexists _, _; repeat split. exists [rd * (a + 2)]. split; [done | simpl; lia].
      * destruct (a <? rc - 1); simpl;
          [destruct (rd <? 0); simpl|]; eexists _, _; repeat split;
          [exists [] | exists [rd] | exists []]; simpl; rewrite ?app_nil_r;
          split; (done || lia).
    + destruct (500 <=? status_code r); simpl;
        [destruct (a <? rc - 1); simpl|].
      * destruct (rd * (a + 1) <? 0); simpl.
        -- destruct (rd <? 0); simpl; eexists _, _; repeat split;
             [exists [] | exists [rd]]; simpl; rewrite ?app_nil_r; split; (done || lia).
        -- eexists _, _; repeat split. exists [rd * (a + 1)]. split; [done | simpl; lia].
      * eexists _, _; repeat split. exists []. rewrite app_nil_r. split; [done | simpl; lia].
      * eexists _, _; repeat split. exists []. rewrite app_nil_r.
        split; [done | simpl; destruct (a <? rc - 1); lia].
  - destruct e; simpl.
    all: destruct (a <? rc - 1); simpl.
    all: try (destruct (rd <? 0); simpl).
    all: try (destruct (rd * (a + 1) <? 0); simpl).
    all: eexists _, _; repeat split.
    all: first [ exists []; rewrite app_nil_r; split; [done | simpl; lia]
               | eexists [_]; split; [done | simpl; lia] ].
Qed.
End PassAny.

Lemma attempts_any T key rc rd n : forall a le w,
  a + Z.of_nat n = rc ->
  exists o w',
    attempts T n key rc rd a le w = (o, w')
    /\ disk w' = disk w
    /\ (requests w <= requests w' <= requests w + n)%nat
    /\ exists l, slept w' = slept w ++ l /\ (length l <= n - 1)%nat.
Proof.
  induction n as [|n IH]; intros a le w Hn.
  - simpl. unfold bind, logger, ret. simpl. eexists _, _. split; [reflexivity|].
    simpl. split; [done|]. split; [lia|]. exists []. by rewrite app_nil_r.
  - destruct (pass_any T key rc rd a le w)
      as (o & w1 & Ep & Hd & Hr & _ & l1 & Hs & Hl1).
    cbn [attempts]. unfold bind at 1. rewrite Ep.
    destruct o as [[d|le1]|e].
    + unfold ret. eexists _, _. split; [reflexivity|]. split; [done|]. split; [lia|].
      exists l1. split; [done|]. destruct (Z.ltb_spec a (rc - 1)); lia.
    + destruct (IH (a + 1) le1 w1) as (o & w' & Ea & Hd' & Hr' & l2 & Hs' & Hl2); [lia|].
      exists o, w'. split; [exact Ea|]. split; [congruence|]. split; [lia|].
      exists (l1 ++ l2). rewrite Hs', Hs, <- app_assoc. split; [done|].
      rewrite length_app. destruct (Z.ltb_spec a (rc - 1)); lia.
    + eexists _, _. split; [reflexivity|]. split; [done|]. split; [lia|].
      exists l1. split; [done|]. destruct (Z.ltb_spec a (rc - 1)); lia.
Qed.

(** X2. Whatever the transport does (pages, errors, exceptions or
    interrupts) and whatever the delay, a call of [search_symbols] issues at
    most [retry_count] GETs, sleeps fewer times than it has attempts, and
    never touches the disk. *)
Theorem search_symbols_bounds
    (T : nat -> option string -> Outcome Response)
    (key : option string) (retry_count retry_delay : Z) (w : World) :
  exists o w',
    search_symbols T key retry_count retry_delay w = (o, w')
    /\ disk w' = disk w
    /\ (requests w <= requests w' <= requests w + Z.to_nat retry_count)%nat
    /\ exists l, slept w' = slept w ++ l
                 /\ (length l <= Z.to_nat retry_count - 1)%nat.
Proof.
  unfold search_symbols.
  destruct (Z.le_gt_cases retry_count 0) as [Hle|Hgt].
  - replace (Z.to_nat retry_count) with 0%nat by lia. simpl.
    unfold bind, logger, ret. simpl. eexists _, _. split; [reflexivity|].
    simpl. split; [done|]. split; [lia|]. exists []. by rewrite app_nil_r.
  - apply attempts_any. lia.
Qed.

(** X3. An interrupt (an exception outside [Exception], such as
    KeyboardInterrupt) during an attempt leaves [search_symbols] at once: when
    the attempts before it failed, the call raises it after one GET more,
    and no later attempt is made. *)
Theorem search_symbols_interrupt_propagates
    (T : nat -> option string -> Outcome Response)
    (key : option string) (retry_count retry_delay : Z) (w : World)
    (i : nat) (e : exn) :
  0 <= retry_delay ->
  (i < Z.to_nat retry_count)%nat ->
  (forall j, (j < i)%nat ->
     page_of (T (requests w + j)%nat key) = None
     /\ forall e', T (requests w + j)%nat key = Raise e' -> is_Exception e' = true) ->
  T (requests w + i)%nat key = Raise e ->
  is_Exception e = false ->
  exists w',
    search_symbols T key retry_count retry_delay w = (Raise e, w')
    /\ requests w' = (requests w + i + 1)%nat
    /\ disk w' = disk w.
Proof.
  intros Hrd Hi Hbefore He Hint. unfold search_symbols.
  assert (Hgen : forall k n a le w0,
            0 <= a -> a + Z.of_nat n = retry_count -> (k < n)%nat ->
            (forall j, (j < k)%nat ->
               page_of (T (requests w0 + j)%nat key) = None
               /\ forall e', T (requests w0 + j)%nat key = Raise e' ->
                             is_Exception e' = true) ->
            T (requests w0 + k)%nat key = Raise e ->
            exists w',
              attempts T n key retry_count retry_delay a le w0 = (Raise e, w')
              /\ requests w' = (requests w0 + k + 1)%nat /\ disk w' = disk w0).
  { clear w Hbefore He Hi i.
    induction k as [|k IH]; intros n a le w0 Ha Hn Hk Hbefore He.
    - destruct n as [|n]; [lia|]. rewrite Nat.add_0_r in He.
      cbn [attempts]. unfold bind at 1, try_except, attempt_try, bind, session_get.
      rewrite He. simpl. unfold attempt_except.
      destruct e; simpl in *; try discriminate; unfold raise;
        eexists; (split; [reflexivity|]); simpl; (split; [lia | done]).
    - destruct n as [|n]; [lia|].
      destruct (Hbefore 0%nat ltac:(lia)) as [Hp Hq]. rewrite Nat.add_0_r in Hp, Hq.
      destruct (pass_exact T key retry_count retry_delay a le w0 Hrd Ha Hq)
        as (flow & Ep & Hflow).
      rewrite Hp in Hflow. destruct Hflow as (le1 & ->).
      cbn [attempts]. unfold bind at 1. rewrite Ep.
      lazymatch goal with
      | |- context [attempts _ _ _ _ _ _ _ ?w1] =>
        destruct (IH n (a + 1) le1 w1) as (w' & Ea & Hr & Hd); [lia | lia | lia | |  |]
      end.
      + intros j Hj. cbn [requests].
        replace (S (requests w0) + j)%nat with (requests w0 + S j)%nat by lia.
        apply Hbefore. lia.
      + cbn [requests].
        by replace (S (requests w0) + k)%nat with (requests w0 + S k)%nat by lia.
      + cbn [requests disk] in *. exists w'. split; [exact Ea|]. split; [lia | done]. }
  apply (Hgen i); [lia | lia | exact Hi | exact Hbefore | exact He].
Qed.

Lemma search_symbols_interrupt_propagates_witness :
  exists w',
    search_symbols interrupted None 3 5 fresh_world = (Raise KeyboardInterrupt, w')
    /\ requests w' = 1%nat.
Proof.
  destruct (search_symbols_interrupt_propagates interrupted None 3 5 fresh_world
              0 KeyboardInterrupt) as (w' & E & Hr & _).
  - lia.
  - lia.
  - intros j Hj. lia.
  - reflexivity.
  - reflexivity.
  - exists w'. split; [exact E | exact Hr].
Defined.

(** X4. With a negative [retry_delay] and more than one attempt, the
    first failed attempt that asks for a wait makes [search_symbols]
    raise: [time.sleep] refuses the negative length with a ValueError,
    inside the [try] block or inside the [except] clause, and the one
    raised in the clause is not caught. *)
Theorem search_symbols_negative_delay_raises
    (T : nat -> option string -> Outcome Response)
    (key : option string) (retry_count retry_delay : Z) (w : World) (d : Z) :
  retry_delay < 0 ->
  1 < retry_count ->
  backoff (T (requests w) key) retry_delay 0 = Some d ->
  (forall e, T (requests w) key = Raise e -> is_Exception e = true) ->
  exists w',
    search_symbols T key retry_count retry_delay w
    = (Raise (ValueError "sleep length must be non-negative"), w')
    /\ requests w' = S (requests w)
    /\ slept w' = slept w.
Proof.
  intros Hrd Hrc Hb Hexc. unfold search_symbols.
  destruct (Z.to_nat retry_count) as [|n] eqn:En; [lia|].
  cbn [attempts]. unfold bind at 1, try_except, attempt_try, bind, session_get.
  unfold backoff in Hb.
  assert (H1 : (retry_delay * (0 + 1) <? 0) = true) by (apply Z.ltb_lt; lia).
  assert (H2 : (retry_delay * (0 + 2) <? 0) = true) by (apply Z.ltb_lt; lia).
  assert (H0 : (retry_delay <? 0) = true) by (apply Z.ltb_lt; lia).
  assert (Hlt : (0 <? retry_count - 1) = true) by (apply Z.ltb_lt; lia).
  destruct (T (requests w) key) as [r|e]; simpl.
  - destruct (status_code r =? 200).
    + unfold response_json. destruct (json r) as [b|]; simpl.
      * unfold ret at 1. simpl.
        destruct (body_data b); [discriminate|].
        destruct (body_errors b); [|discriminate].
        destruct (contains _ _); [|discriminate].
        rewrite Hlt. unfold bind, sleep. rewrite H2. simpl.
        unfold attempt_except. simpl. rewrite Hlt. unfold bind, sleep. rewrite H0.
        eexists. repeat split.
      * unfold raise. simpl. unfold attempt_except. simpl. rewrite Hlt.
        unfold bind, sleep. rewrite H0. eexists. repeat split.
    + destruct (500 <=? status_code r); [|discriminate]. simpl.
      rewrite Hlt. unfold bind, sleep. rewrite H1. simpl.
      unfold attempt_except. simpl. rewrite Hlt. unfold bind, sleep. rewrite H0.
      eexists. repeat split.
  - specialize (Hexc e eq_refl). unfold attempt_except.
    destruct e; simpl in *; try discriminate; rewrite Hlt; unfold bind, sleep;
      rewrite ?H0, ?H1; eexists; repeat split.
Qed.

Lemma search_symbols_negative_delay_raises_witness :
  exists w',
    search_symbols (always_http 503) None 3 (-5) fresh_world
    = (Raise (ValueError "sleep length must be non-negative"), w')
    /\ requests w' = 1%nat.
Proof.
  destruct (search_symbols_negative_delay_raises (always_http 503) None 3 (-5)
              fresh_world (-5)) as (w' & E & Hr & _).
  - lia.
  - lia.
  - reflexivity.
  - intros e He. discriminate He.
  - exists w'. split; [exact E | exact Hr].
Defined.

(** ** Resuming: what is read back *)

(** X5. Resuming at batch N > 1 reads the batch files numbered 1 to N - 1
    that exist, in increasing order and skipping the missing ones.  An
    exception of [pd.read_csv] leaves [download_all_symbols] at once,
    before any request.  Otherwise the frames collected are the frames as
    they were read, which need not be the frames that were written;
    [total_symbols] is the number of their rows, the cursor and
    [total_reported] come from the state file when it can be read (None
    and 0 otherwise), and nothing is written. *)
Theorem init_loop_reads_existing_batches
    (read_csv : DataFrame -> Outcome DataFrame) (N : Z) (w : World) :
  1 < N ->
  init_loop read_csv (Some N) w
  = match read_all read_csv (existing_batches (disk w) N) with
    | Ret dfs =>
      (Ret {| all_dataframes := dfs;
              batch := N;
              next_key := match state_file (disk w) with
                          | Some (Readable st) => st_next_key st
                          | _ => None
                          end;
              total_symbols := total_len dfs;
              total_reported := match state_file (disk w) with
                                | Some (Readable st) => st_total_reported st
                                | _ => 0
                                end;
              consecutive_errors := 0 |}, w)
    | Raise e => (Raise e, w)
    end.
Proof.
  intros HN. unfold init_loop, bind.
  destruct (Z.ltb_spec 1 N); [|lia]. destruct (Z.eqb_spec N 0); [lia|].
  rewrite load_previous_spec. fold (existing_batches (disk w) N).
  destruct (read_all read_csv (existing_batches (disk w) N)) as [dfs|e]; [|done].
  unfold get_disk, ret. simpl.
  by destruct (state_file (disk w)) as [[|st]|].
Qed.

(** Batch 1 holds the ticker NA and is read back without it. *)
Lemma init_loop_reads_existing_batches_witness :
  fst (init_loop read_na (Some 3) world_without_state_na)
  = Ret {| all_dataframes :=
             [{| columns := columns (DataFrame_of (symbolList page_na));
                 rows := [na_read_back] |}];
           batch := 3; next_key := None; total_symbols := 1; total_reported := 0;
           consecutive_errors := 0 |}.
Proof.
  rewrite (init_loop_reads_existing_batches read_na 3 world_without_state_na); [|lia].
  vm_compute. reflexivity.
Defined.

(** ** The checkpoint of a fresh run *)

Lemma names_next_advance res s d s1 :
  (batch s <> 1 -> names_next s d) ->
  advance res s = (s1, None) ->
  batch s1 <> 1 -> names_next s1 (persist res s d).
Proof.
  intros Hn Hadv Hb. unfold advance, persist, max_consecutive_errors, names_next in *.
  destruct res as [p|].
  - destruct (symbolList p) as [|r rs] eqn:Esl; [done|].
    destruct (negb (hasMore p) || negb (bool_decide (is_Some (nextKey p)))); [done|].
    destruct (Z.ltb_spec 1000 (batch s + 1)); [done|].
    injection Hadv as <-. simpl. reflexivity.
  - destruct (Z.leb_spec 3 (consecutive_errors s + 1)); [done|].
    injection Hadv as <-. simpl in *. by apply Hn.
Qed.

Section Checkpoint.
Variable T : nat -> option string -> Outcome Response.
Hypothesis Hquiet : no_interrupt T.
Variable delay : Z.
Hypothesis Hdelay : 0 <= delay.

Lemma while_true_names_next j : forall s w sj wj,
  0 <= consecutive_errors s ->
  (batch s <> 1 -> names_next s (disk w)) ->
  batch s <= 1000 ->
  while_true T j delay s w = (Ret (sj, None), wj) ->
  (batch sj <> 1 -> names_next sj (disk wj)) /\ batch sj <= 1000.
Proof.
  induction j as [|j IH]; intros s w sj wj Hce Hn Hb Hrun.
  - simpl in Hrun. unfold ret in Hrun. by injection Hrun as <- <-.
  - simpl in Hrun. unfold bind in Hrun.
    destruct (iteration_spec T Hquiet delay Hdelay s w Hce) as (w1 & Eit & Hd1).
    pose proof Eit as Eit'. rewrite Eit in Hrun.
    destruct (advance _ s) as [s1 [st|]] eqn:Eadv; simpl in Hrun; [done|].
    eapply IH; [| | |exact Hrun].
    + by eapply advance_errors.
    + rewrite Hd1. by eapply names_next_advance.
    + apply iteration_continue in Eit'. lia.
Qed.
End Checkpoint.

(** X6. Between two passes of a fresh run (no interrupt, non-negative
    delay) the disk is a checkpoint of the loop: the batch number is
    between 1 and 1000, the batch files 1 to batch - 1 are exactly the
    frames collected, in order, [total_symbols] is the number of their
    rows, and once a batch is saved the state file holds the number of the
    next batch, its cursor and the two totals. *)
Theorem fresh_run_keeps_checkpoint
    (T : nat -> option string -> Outcome Response) (delay : Z)
    (w : World) (j : nat) (sj : Loop) (wj : World) :
  no_interrupt T ->
  0 <= delay ->
  while_true T j delay fresh_loop w = (Ret (sj, None), wj) ->
  1 <= batch sj <= 1000
  /\ Z.of_nat (length (all_dataframes sj)) = batch sj - 1
  /\ (forall i : nat, (i < length (all_dataframes sj))%nat ->
        batch_files (disk wj) !! (1 + Z.of_nat i) = all_dataframes sj !! i)
  /\ total_symbols sj = total_len (all_dataframes sj)
  /\ (batch sj <> 1 ->
      state_file (disk wj)
      = Some (Readable {| st_batch := batch sj; st_next_key := next_key sj;
                          st_total_symbols := total_symbols sj;
                          st_total_reported := total_reported sj |})).
Proof.
  intros Hquiet Hdelay Hrun.
  pose proof (while_true_checkpointed T Hquiet delay Hdelay j fresh_loop w sj wj
                (checkpointed_fresh (disk w)) Hrun) as (Hlen & Hfr & Htot & _).
  destruct (while_true_names_next T Hquiet delay Hdelay j fresh_loop w sj wj)
    as [Hn Hb]; [simpl; lia | done | simpl; lia | exact Hrun |].
  split; [lia|]. split; [exact Hlen|]. split; [exact Hfr|]. split; [exact Htot|].
  exact Hn.
Qed.

Lemma fresh_run_keeps_checkpoint_witness :
  state_file (disk (snd (while_true (fixed_backend backend_two_pages) 1 2
                           fresh_loop fresh_world)))
  = Some (Readable {| st_batch := 2; st_next_key := Some "k1";
                      st_total_symbols := 1; st_total_reported := 2 |}).
Proof.
  destruct (fresh_run_keeps_checkpoint (fixed_backend backend_two_pages) 2 fresh_world 1
              after_page_one
              (snd (while_true (fixed_backend backend_two_pages) 1 2
                      fresh_loop fresh_world)))
    as (_ & _ & _ & _ & Hst).
  - intros n [k|] e H; discriminate H.
  - lia.
  - vm_compute. reflexivity.
  - apply Hst. discriminate.
Defined.

(** ** What a run returns and leaves *)

(** X7. Whenever [download_all_symbols] returns a frame, fresh or
    resumed and however the batch files read, this frame has a column
    'symbol', it is what all_symbols_latest.csv holds, and the
    state file is gone; in a run that did not resume no symbol is twice in
    it.  Whenever it returns None, the last thing logged is that no data
    was collected. *)
Theorem download_returns_what_it_wrote
    (T : nat -> option string -> Outcome Response)
    (read_csv : DataFrame -> Outcome DataFrame) (delay : Z)
    (resume : option Z) (w : World) (result : option DataFrame) (w' : World) :
  download_all_symbols T read_csv delay resume w = (Ret result, w') ->
  match result with
  | Some out =>
    latest_file (disk w') = Some out
    /\ state_file (disk w') = None
    /\ "symbol" ∈ columns out
    /\ (resume = None -> NoDup (cell "symbol" <$> rows out))
  | None => last (log w') = Some NoDataCollected
  end.
Proof.
  unfold download_all_symbols, bind.
  destruct (init_loop read_csv resume w) as [[s0|e0] w0]; [|done].
  destruct (while_true T (loop_bound s0) delay s0 w0) as [[[sf o]|e1] w1]; [|done].
  unfold combine_results. simpl.
  destruct (all_dataframes sf) as [|df dfs].
  - unfold bind, logger, ret. simpl. intros [= <- <-]. simpl. by rewrite last_snoc.
  - unfold bind, pd_concat, ret, drop_duplicates.
    case_bool_decide as Hcol; [|done].
    unfold ret, get_disk, put_disk, set_disk. simpl.
    intros [= <- <-]. simpl. split; [done|]. split; [done|]. split; [done|].
    intros _. apply drop_dups_NoDup.
Qed.

Lemma download_returns_what_it_wrote_witness :
  exists out w',
    download_all_symbols (fixed_backend backend_two_pages) read_back 2 None fresh_world
    = (Ret (Some out), w')
    /\ latest_file (disk w') = Some out
    /\ state_file (disk w') = None.
Proof.
  destruct (download_all_symbols (fixed_backend backend_two_pages) read_back 2 None
              fresh_world)
    as [[[out|]|e] w'] eqn:E; [|vm_compute in E; discriminate E..].
  pose proof (download_returns_what_it_wrote _ _ _ _ _ _ _ E) as (Hl & Hs & _).
  exists out, w'. split; [reflexivity|]. split; [exact Hl | exact Hs].
Defined.

(** ** A pass whose fetch fails *)

(** X8. A pass of the loop whose fetch fails (no page in three attempts)
    leaves the disk, the cursor, the batch number and the frames as they
    were: the same page is fetched again by the next pass, not skipped.  It
    counts one failure more and, unless that is the third in a row, which
    aborts, it sleeps 30 seconds times the count before going on. *)
Theorem failed_pass_retries_same_page
    (T : nat -> option string -> Outcome Response) (delay : Z)
    (s : Loop) (w : World) :
  no_interrupt T ->
  0 <= delay ->
  0 <= consecutive_errors s ->
  first_page T (next_key s) (requests w) 3 = None ->
  exists s1 o w1,
    iteration T delay s w = (Ret (s1, o), w1)
    /\ next_key s1 = next_key s /\ batch s1 = batch s
    /\ all_dataframes s1 = all_dataframes s
    /\ consecutive_errors s1 = consecutive_errors s + 1
    /\ o = (if 3 <=? consecutive_errors s + 1 then Some Aborted else None)
    /\ disk w1 = disk w
    /\ slept w1
       = slept w ++ (if 1 <? batch s then [delay] else [])
           ++ backoff_schedule T (next_key s) 5 (requests w) 3
           ++ (if 3 <=? consecutive_errors s + 1 then []
               else [30 * (consecutive_errors s + 1)]).
Proof.
  intros Hquiet Hdelay Hce Hfail.
  destruct (iteration_failed T Hquiet delay Hdelay s w Hce Hfail)
    as (w1 & E & Hd & _ & Hs).
  eexists _, _, w1. split; [exact E|]. simpl. repeat split; try done.
Qed.

Lemma failed_pass_retries_same_page_witness :
  exists s1 w1,
    iteration (always_http 503) 2 fresh_loop fresh_world = (Ret (s1, None), w1)
    /\ next_key s1 = None /\ batch s1 = 1
    /\ slept w1 = [5; 10; 30].
Proof.
  destruct (failed_pass_retries_same_page (always_http 503) 2 fresh_loop fresh_world)
    as (s1 & o & w1 & E & Hk & Hb & _ & _ & -> & _ & Hs).
  - intros n key e H. discriminate H.
  - lia.
  - simpl. lia.
  - reflexivity.
  - exists s1, w1. split; [exact E|]. split; [exact Hk|]. split; [exact Hb | exact Hs].
Defined.

(** X9. When the first three fetches of a fresh run all fail, the run
    aborts after nine search requests, with waits of 30 and 60 seconds
    between the fetches, returns None and leaves the disk exactly as it
    found it. *)
Theorem fresh_run_without_data_leaves_disk
    (T : nat -> option string -> Outcome Response)
    (read_csv : DataFrame -> Outcome DataFrame) (delay : Z) (w : World) :
  no_interrupt T ->
  0 <= delay ->
  (forall i, (i < 9)%nat -> page_of (T (requests w + i)%nat None) = None) ->
  exists w',
    download_all_symbols T read_csv delay None w = (Ret None, w')
    /\ disk w' = disk w
    /\ requests w' = (requests w + 9)%nat
    /\ slept w'
       = slept w ++ backoff_schedule T None 5 (requests w) 3 ++ [30]
           ++ backoff_schedule T None 5 (requests w + 3) 3 ++ [60]
           ++ backoff_schedule T None 5 (requests w + 6) 3.
Proof.
  intros Hquiet Hdelay Hfail.
  assert (Hfp : forall k, (k <= 6)%nat -> first_page T None (requests w + k) 3 = None).
  { intros k Hk. apply first_page_None. intros i Hi.
    rewrite <- Nat.add_assoc. apply Hfail. lia. }
  set (s1 := {| all_dataframes := []; batch := 1; next_key := None; total_symbols := 0;
                total_reported := 0; consecutive_errors := 1 |}).
  set (s2 := {| all_dataframes := []; batch := 1; next_key := None; total_symbols := 0;
                total_reported := 0; consecutive_errors := 2 |}).
  set (s3 := {| all_dataframes := []; batch := 1; next_key := None; total_symbols := 0;
                total_reported := 0; consecutive_errors := 3 |}).
  destruct (iteration_failed T Hquiet delay Hdelay fresh_loop w)
    as (w1 & E1 & Hd1 & Hr1 & Hs1); [simpl; lia | |].
  { rewrite <- (Nat.add_0_r (requests w)). apply Hfp. lia. }
  destruct (iteration_failed T Hquiet delay Hdelay s1 w1)
    as (w2 & E2 & Hd2 & Hr2 & Hs2); [simpl; lia | |].
  { rewrite Hr1. apply Hfp. lia. }
  destruct (iteration_failed T Hquiet delay Hdelay s2 w2)
    as (w3 & E3 & Hd3 & Hr3 & Hs3); [simpl; lia | |].
  { rewrite Hr2, Hr1. rewrite <- Nat.add_assoc. apply Hfp. lia. }
  change (advance None fresh_loop) with (s1, @None Stop) in E1.
  change (advance None s1) with (s2, @None Stop) in E2.
  change (advance None s2) with (s3, Some Aborted) in E3.
  assert (Hrun : while_true T (loop_bound fresh_loop) delay fresh_loop w
                 = (Ret (s3, Some Aborted), w3)).
  { apply (while_true_mono T delay 3); [|unfold loop_bound; simpl; lia].
    cbn [while_true]. unfold bind. rewrite E1. cbn [fst snd].
    rewrite E2. cbn [fst snd]. rewrite E3. reflexivity. }
  assert (Hinit : init_loop read_csv None w = (Ret fresh_loop, w)) by reflexivity.
  unfold download_all_symbols, bind. rewrite Hinit, Hrun.
  simpl. unfold bind, logger, ret. simpl.
  eexists. split; [reflexivity|]. simpl.
  split; [congruence|]. split; [lia|].
  rewrite Hs3, Hs2, Hs1, Hr2, Hr1. simpl.
  rewrite <- !app_assoc. simpl.
  replace (requests w + 3 + 3)%nat with (requests w + 6)%nat by lia.
  rewrite app_nil_r. reflexivity.
Qed.

Lemma fresh_run_without_data_leaves_disk_witness :
  exists w',
    download_all_symbols always_timeout read_back 2 None world_without_state
    = (Ret None, w')
    /\ disk w' = disk world_without_state
    /\ slept w' = [5; 5; 30; 5; 5; 60; 5; 5].
Proof.
  destruct (fresh_run_without_data_leaves_disk always_timeout read_back 2
              world_without_state)
    as (w' & E & Hd & _ & Hs).
  - intros n key e H. by injection H as <-.
  - lia.
  - intros i _. reflexivity.
  - exists w'. split; [exact E|]. split; [exact Hd | exact Hs].
Defined.

(** ** The pages a fresh run collects *)

Lemma run_harvest fetch F : forall s s' st,
  batch s <= 1000 ->
  run fetch F s = (s', Some st) ->
  all_dataframes s'
  = all_dataframes s
    ++ frames_of (harvest fetch (Z.to_nat (1001 - batch s)) (next_key s)).
Proof.
  unfold frames_of.
  induction F as [|F IH]; intros s s' st Hb Hrun; [done|].
  simpl in Hrun.
  destruct (Z.to_nat (1001 - batch s)) as [|h] eqn:Eh; [lia|].
  cbn [harvest]. unfold advance, max_consecutive_errors in Hrun.
  destruct (fetch (next_key s)) as [p|] eqn:Ef.
  - destruct (symbolList p) as [|r rs] eqn:Esl.
    + simpl in Hrun. injection Hrun as <- _. simpl. by rewrite app_nil_r.
    + destruct (negb (hasMore p) || negb (bool_decide (is_Some (nextKey p)))).
      * simpl in Hrun. injection Hrun as <- _. simpl. by rewrite Esl.
      * destruct (Z.ltb_spec 1000 (batch s + 1)); simpl in Hrun.
        -- injection Hrun as <- _. simpl. assert (h = 0%nat) as -> by lia.
           simpl. by rewrite Esl.
        -- apply IH in Hrun; [|simpl; lia]. simpl in Hrun. rewrite Hrun.
           replace (Z.to_nat (1001 - (batch s + 1))) with h by lia.
           rewrite <- app_assoc. simpl. by rewrite Esl.
  - destruct (3 <=? consecutive_errors s + 1); simpl in Hrun.
    + injection Hrun as <- _. simpl. by rewrite app_nil_r.
    + apply IH in Hrun; [|simpl; lia]. simpl in Hrun. rewrite Hrun, Eh.
      cbn [harvest]. by rewrite Ef.
Qed.

Lemma harvest_length fetch n : forall key, (length (harvest fetch n key) <= n)%nat.
Proof.
  induction n as [|n IH]; intros key; simpl; [lia|].
  destruct (fetch key) as [p|]; [|simpl; lia].
  destruct (symbolList p); [simpl; lia|].
  destruct (negb (hasMore p) || negb (bool_decide (is_Some (nextKey p)))); simpl; [lia|].
  specialize (IH (nextKey p)). lia.
Qed.

Lemma download_fresh_harvest (B : option string -> Outcome Response)
    (read_csv : DataFrame -> Outcome DataFrame) (delay : Z) (w : World) :
  0 <= delay ->
  (forall key e, B key = Raise e -> is_Exception e = true) ->
  fst (download_all_symbols (fixed_backend B) read_csv delay None w)
  = merged (frames_of (harvest (fetch_of B) 1000 None)).
Proof.
  intros Hdelay Hquiet.
  rewrite (download_fst B Hquiet delay Hdelay read_csv None w fresh_loop w);
    [|reflexivity | simpl; lia].
  destruct (run_stops (fetch_of B) (loop_bound fresh_loop) fresh_loop)
    as (s' & st & Erun); [simpl; lia | unfold loop_bound; simpl; lia |].
  rewrite Erun. simpl. f_equal.
  apply run_harvest in Erun; [|simpl; lia]. exact Erun.
Qed.

(** X10. Against a backend that answers by the cursor alone (no interrupt,
    non-negative delay), a fresh run returns the merge of the pages found by
    following the cursors from the first page: up to the first page that
    cannot be fetched or is empty, up to and with the first page that has no
    more symbols or no next key, and 1000 pages at most. *)
Theorem fresh_run_returns_harvest
    (B : option string -> Outcome Response)
    (read_csv : DataFrame -> Outcome DataFrame) (delay : Z) (w : World) :
  0 <= delay ->
  (forall key e, B key = Raise e -> is_Exception e = true) ->
  fst (download_all_symbols (fixed_backend B) read_csv delay None w)
  = merged (frames_of (harvest (fetch_of B) 1000 None))
  /\ (length (frames_of (harvest (fetch_of B) 1000 None)) <= 1000)%nat.
Proof.
  intros Hdelay Hquiet. split.
  - by apply download_fresh_harvest.
  - unfold frames_of. rewrite length_fmap. apply harvest_length.
Qed.

Lemma fresh_run_returns_harvest_witness :
  exists out,
    fst (download_all_symbols (fixed_backend backend_two_pages) read_back 2 None
           fresh_world)
    = Ret (Some out)
    /\ rows out = [symbol_rec "A" "NYSE" "EQUITY"; symbol_rec "B" "CME" "FUTURE"].
Proof.
  destruct (fresh_run_returns_harvest backend_two_pages read_back 2 fresh_world)
    as [E _].
  - lia.
  - intros [k|] e H; discriminate H.
  - rewrite E. eexists. split; vm_compute; reflexivity.
Defined.

(** ** Resuming, when the batch files read back as they were written *)

(** X17. Against a backend that answers every fetch of a cursor the same
    way, let a fresh run be stopped between two passes of its loop, when
    [batch sj - 1] batches are checkpointed, and let a run be restarted
    with resume_from_batch = [batch sj] on a disk that has kept those batch
    files and the state file.  If [pd.read_csv] gives each of those
    batches back as it was written, the restarted run returns what the
    run that is not interrupted returns: the merge of the pages found by
    following the cursors from the first page. *)
Theorem resumed_run_same_result
    (B : option string -> Outcome Response)
    (read_csv : DataFrame -> Outcome DataFrame) (delay : Z)
    (w : World) (j : nat) (sj : Loop) (wj w' : World) :
  0 <= delay ->
  (forall key e, B key = Raise e -> is_Exception e = true) ->
  while_true (fixed_backend B) j delay fresh_loop w = (Ret (sj, None), wj) ->
  (forall i, 1 <= i < batch sj ->
     batch_files (disk w') !! i = batch_files (disk wj) !! i) ->
  state_file (disk w') = state_file (disk wj) ->
  (forall df, df ∈ all_dataframes sj -> read_csv df = Ret df) ->
  fst (download_all_symbols (fixed_backend B) read_csv delay (Some (batch sj)) w')
  = merged (frames_of (harvest (fetch_of B) 1000 None))
  /\ fst (download_all_symbols (fixed_backend B) read_csv delay None w)
     = merged (frames_of (harvest (fetch_of B) 1000 None)).
Proof.
  intros Hdelay Hquiet Hrun Hbf Hsf Hback.
  split; [|by apply download_fresh_harvest].
  rewrite <- (download_fresh_harvest B read_csv delay w Hdelay Hquiet).
  set (fetch := fetch_of B).
  pose proof (fixed_quiet B Hquiet) as HquietT.
  assert (Hinv : checkpointed sj (disk wj)).
  { eapply (while_true_checkpointed _ HquietT delay Hdelay j); [|exact Hrun].
    apply checkpointed_fresh. }
  destruct (while_true_run B Hquiet delay Hdelay j fresh_loop w) as (wj' & Hrun');
    [simpl; lia|].
  rewrite Hrun in Hrun'. injection Hrun' as Hj _. symmetry in Hj. fold fetch in Hj.
  rewrite (download_fst B Hquiet delay Hdelay read_csv (Some (batch sj)) w'
             (reset_errors sj) w');
    [|by apply (init_loop_resume read_csv sj (disk wj)) | simpl; lia].
  rewrite (download_fst B Hquiet delay Hdelay read_csv None w fresh_loop w);
    [|reflexivity | simpl; lia].
  fold fetch.
  destruct (run_stops fetch (loop_bound fresh_loop) fresh_loop) as (s1 & st1 & E1);
    [simpl; lia | unfold loop_bound; simpl; lia |].
  destruct (run_stops fetch (loop_bound (reset_errors sj)) (reset_errors sj))
    as (s2 & st2 & E2); [simpl; lia | unfold loop_bound; simpl; lia |].
  rewrite E1, E2. simpl. f_equal.
  destruct (le_lt_dec (loop_bound fresh_loop) j) as [Hle|Hlt].
  { apply (run_mono fetch _ j) in E1; [congruence | exact Hle]. }
  replace (loop_bound fresh_loop) with (j + (loop_bound fresh_loop - j))%nat in E1 by lia.
  rewrite (run_split fetch j fresh_loop sj _ Hj) in E1.
  symmetry. eapply run_reset_errors; eassumption.
Qed.

(** The run on [backend_two_pages], stopped after its first pass. *)
Lemma resumed_run_same_result_witness :
  exists out,
    fst (download_all_symbols (fixed_backend backend_two_pages) read_back 2 (Some 2)
           (snd (while_true (fixed_backend backend_two_pages) 1 2 fresh_loop
                   fresh_world)))
    = Ret (Some out)
    /\ rows out = [symbol_rec "A" "NYSE" "EQUITY"; symbol_rec "B" "CME" "FUTURE"].
Proof.
  destruct (resumed_run_same_result backend_two_pages read_back 2 fresh_world 1
              after_page_one
              (snd (while_true (fixed_backend backend_two_pages) 1 2 fresh_loop
                      fresh_world))
              (snd (while_true (fixed_backend backend_two_pages) 1 2 fresh_loop
                      fresh_world)))
    as [E _].
  - lia.
  - intros [k|] e H; discriminate H.
  - vm_compute. reflexivity.
  - reflexivity.
  - reflexivity.
  - intros df _. reflexivity.
  - change (batch after_page_one) with 2 in E. rewrite E.
    eexists. split; vm_compute; reflexivity.
Defined.

Lemma existing_batches_first d N df :
  1 < N -> batch_files d !! 1 = Some df ->
  exists rest, existing_batches d N = df :: rest.
Proof.
  intros HN Hdf. unfold existing_batches. rewrite seqZ_cons by lia. csimpl.
  rewrite Hdf. simpl. by eexists.
Qed.

Lemma existing_batches_read_back read_csv d N :
  (forall i f, 1 <= i < N -> batch_files d !! i = Some f -> read_csv f = Ret f) ->
  read_all read_csv (existing_batches d N) = Ret (existing_batches d N).
Proof.
  intros Hback. apply read_all_back. intros df Hdf.
  apply list_elem_of_omap in Hdf as (i & Hi & Hf).
  apply elem_of_seqZ in Hi. apply (Hback i); [lia | exact Hf].
Qed.

(** The first row with a symbol, among rows that have no symbol twice. *)
Lemma head_with_cell col (rs rest : list SymbolRec) r :
  NoDup (cell col <$> rs) -> r ∈ rs ->
  head (with_cell col (cell col r) (rs ++ rest)) = Some r.
Proof.
  unfold with_cell. induction rs as [|r0 rs IH]; intros Hnd Hr;
    [by apply elem_of_nil in Hr|].
  rewrite fmap_cons in Hnd. apply NoDup_cons in Hnd as [Hr0 Hnd].
  simpl. rewrite filter_cons.
  apply elem_of_cons in Hr as [->|Hr].
  - by rewrite decide_True.
  - rewrite decide_False; [by apply IH|].
    intros Heq. apply Hr0. rewrite Heq. by apply list_elem_of_fmap_2.
Qed.

(** X18. Let a run be resumed at batch N > 1 when the state file is absent
    or cannot be read, and let the batch files read back as they were
    written.  The cursor stays None and the batch counter starts at N: the
    first pass fetches the first page again and saves it as batch N.  If
    that page is also batch 1 on disk, the loop ends with its frame twice
    among the collected frames; the removal of duplicate symbols then
    leaves one row for the symbol of each of its records, and this row is
    the record itself when the page has no symbol twice. *)
Theorem resume_without_state_refetches_first_page
    (T : nat -> option string -> Outcome Response)
    (read_csv : DataFrame -> Outcome DataFrame) (delay N : Z)
    (w : World) (p0 : Page) :
  1 < N ->
  state_file (disk w) = None \/ state_file (disk w) = Some Unreadable ->
  0 <= delay ->
  no_interrupt T ->
  first_page T None (requests w) 3 = Some p0 ->
  symbolList p0 <> [] ->
  batch_files (disk w) !! 1 = Some (DataFrame_of (symbolList p0)) ->
  (forall i f, 1 <= i < N -> batch_files (disk w) !! i = Some f -> read_csv f = Ret f) ->
  "symbol" ∈ columns (DataFrame_of (symbolList p0)) ->
  exists s0,
    init_loop read_csv (Some N) w = (Ret s0, w)
    /\ next_key s0 = None /\ batch s0 = N
    /\ (exists s1 o w1,
          iteration T delay s0 w = (Ret (s1, o), w1)
          /\ batch_files (disk w1) !! N = Some (DataFrame_of (symbolList p0))
          /\ batch_files (disk w1) !! 1 = Some (DataFrame_of (symbolList p0)))
    /\ (exists sf o wf out wout l2 l3,
          while_true T (loop_bound s0) delay s0 w = (Ret (sf, o), wf)
          /\ all_dataframes sf
             = DataFrame_of (symbolList p0) :: l2
                 ++ DataFrame_of (symbolList p0) :: l3
          /\ download_all_symbols T read_csv delay (Some N) w = (Ret (Some out), wout)
          /\ rows out = drop_dups "symbol" [] (mjoin (rows <$> all_dataframes sf))
          /\ (forall r, r ∈ symbolList p0 ->
                length (with_cell "symbol" (cell "symbol" r) (rows out)) = 1%nat)
          /\ (NoDup (cell "symbol" <$> symbolList p0) ->
              forall r, r ∈ symbolList p0 -> r ∈ rows out)).
Proof.
  intros HN Hsf Hdelay Hquiet Hp0 Hne Hb1 Hback Hsym.
  set (df0 := DataFrame_of (symbolList p0)) in *.
  destruct (existing_batches_first (disk w) N df0 HN Hb1) as [rest Hex].
  set (s0 := {| all_dataframes := df0 :: rest; batch := N;
                next_key := None; total_symbols := total_len (df0 :: rest);
                total_reported := 0; consecutive_errors := 0 |}).
  assert (Hinit : init_loop read_csv (Some N) w = (Ret s0, w)).
  { unfold init_loop, bind.
    destruct (Z.ltb_spec 1 N); [|lia]. destruct (Z.eqb_spec N 0); [lia|].
    rewrite load_previous_spec. fold (existing_batches (disk w) N).
    rewrite existing_batches_read_back by exact Hback. rewrite Hex.
    unfold get_disk, ret. simpl. destruct Hsf as [E | E]; rewrite E; reflexivity. }
  exists s0. split; [exact Hinit|]. split; [done|]. split; [done|].
  destruct (iteration_spec T Hquiet delay Hdelay s0 w) as (w1 & Eit & Hd1); [simpl; lia|].
  cbn [next_key s0] in Eit, Hd1. rewrite Hp0 in Eit, Hd1.
  split.
  { destruct (advance (Some p0) s0) as [s1 o] eqn:Eadv.
    exists s1, o, w1. split; [exact Eit|]. rewrite Hd1. unfold persist.
    destruct (symbolList p0) as [|r rs] eqn:Esl; [done|]. cbn [batch_files batch s0].
    split; [apply lookup_insert_eq|]. rewrite lookup_insert_ne by lia. exact Hb1. }
  assert (Hfuel : exists f, loop_bound s0 = S f).
  { unfold loop_bound. exists (3 * Z.to_nat (1001 - batch s0) + 2)%nat. lia. }
  destruct Hfuel as [f Hf].
  assert (Hloop : exists sf o wf ext,
            while_true T (loop_bound s0) delay s0 w = (Ret (sf, o), wf)
            /\ all_dataframes sf = (all_dataframes s0 ++ [df0]) ++ ext).
  { rewrite Hf. cbn [while_true]. unfold bind. rewrite Eit.
    pose proof (advance_errors (Some p0) s0) as Herr.
    assert (Hfr : all_dataframes (fst (advance (Some p0) s0)) = all_dataframes s0 ++ [df0]).
    { unfold advance. fold df0. destruct (symbolList p0) as [|r rs] eqn:Esl; [done|].
      by destruct (negb (hasMore p0) || negb (bool_decide (is_Some (nextKey p0)))). }
    destruct (advance (Some p0) s0) as [s1 [st|]] eqn:Eadv; simpl in Hfr |- *.
    - unfold ret. eexists _, _, _, []. split; [reflexivity|]. by rewrite app_nil_r.
    - destruct (while_true_frames T Hquiet delay Hdelay f s1 w1)
        as (sf & o & wf & Erun & [ext Hext]); [eapply Herr; [simpl; lia | reflexivity]|].
      eexists _, _, _, ext. split; [exact Erun|]. by rewrite Hext, Hfr. }
  destruct Hloop as (sf & o & wf & ext & Erun & Hframes).
  cbn [all_dataframes s0] in Hframes.
  assert (Hin : df0 ∈ all_dataframes sf).
  { rewrite Hframes. apply elem_of_app. left. apply elem_of_app. left. by left. }
  assert (Hcol : "symbol" ∈ columns (concat_frames (all_dataframes sf))).
  { unfold concat_frames. simpl. apply elem_of_union_list. exists (columns df0).
    split; [by apply list_elem_of_fmap_2 | exact Hsym]. }
  destruct (combine_results_spec (all_dataframes sf) wf) as (wout & Ecomb & _);
    [by intros E; rewrite E in Hin; apply elem_of_nil in Hin | exact Hcol |].
  eexists sf, o, wf, _, wout, rest, ext.
  split; [exact Erun|]. split.
  { rewrite Hframes. simpl. by rewrite <- !app_assoc. }
  split.
  { unfold download_all_symbols, bind. rewrite Hinit, Erun. exact Ecomb. }
  split; [reflexivity|]. split.
  - intros r Hr. cbn [rows]. apply drop_dups_once; [apply not_elem_of_nil|].
    apply list_elem_of_fmap_2. unfold concat_frames. cbn [rows].
    apply list_elem_of_join. exists (rows df0). split; [exact Hr|].
    by apply list_elem_of_fmap_2.
  - intros Hnd r Hr. cbn [rows]. unfold concat_frames. cbn [rows].
    assert (Hhead : head (with_cell "symbol" (cell "symbol" r)
                            (drop_dups "symbol" [] (mjoin (rows <$> all_dataframes sf))))
                    = Some r).
    { rewrite drop_dups_first by apply not_elem_of_nil.
      rewrite Hframes. simpl. rewrite <- !app_assoc. simpl.
      by apply head_with_cell. }
    apply head_Some_elem_of in Hhead. unfold with_cell in Hhead.
    by apply list_elem_of_filter in Hhead as [_ ?].
Qed.

(** Resuming at batch 2 in [world_without_state]. *)
Lemma resume_without_state_refetches_first_page_witness :
  exists out wout,
    download_all_symbols (fixed_backend backend_two_pages) read_back 2 (Some 2)
      world_without_state = (Ret (Some out), wout)
    /\ batch_files (disk wout) !! 1 = Some (DataFrame_of (symbolList page_one))
    /\ batch_files (disk wout) !! 2 = Some (DataFrame_of (symbolList page_one))
    /\ length (with_cell "symbol" (Some "A") (rows out)) = 1%nat.
Proof.
  destruct (resume_without_state_refetches_first_page
              (fixed_backend backend_two_pages) read_back 2 2 world_without_state
              page_one)
    as (s0 & _ & _ & _ & _ & (sf & o & wf & out & wout & l2 & l3
                              & _ & _ & Hdl & _ & Honce & _)).
  - lia.
  - left. reflexivity.
  - lia.
  - intros n [k|] e H; discriminate H.
  - reflexivity.
  - discriminate.
  - reflexivity.
  - intros i f _ _. reflexivity.
  - compute_done.
  - exists out, wout. split; [exact Hdl|].
    assert (Hw : batch_files (disk wout) !! 1 = Some (DataFrame_of (symbolList page_one))
                 /\ batch_files (disk wout) !! 2
                    = Some (DataFrame_of (symbolList page_one))).
    { pose proof (f_equal snd Hdl) as E. simpl in E. rewrite <- E.
      vm_compute. split; reflexivity. }
    destruct Hw as [H1 H2]. split; [exact H1|]. split; [exact H2|].
    apply (Honce (symbol_rec "A" "NYSE" "EQUITY")). by left.
Defined.

(** ** main *)

(** X11. Whenever [download_all_symbols] raises, whatever it raises,
    [main] ends with the UnboundLocalError of its finally clause, which
    reads [result_df] before any assignment: an exception leaves [main] in
    every such run. *)
Theorem main_raises_whenever_download_raises
    (T : nat -> option string -> Outcome Response)
    (read_csv : DataFrame -> Outcome DataFrame)
    (odd_dir : string -> DataFrame -> gmap (string * string) DataFrame
               -> option (gmap (string * string) DataFrame))
    (odd_file : string -> string -> DataFrame -> gmap (string * string) DataFrame
                -> option (gmap (string * string) DataFrame))
    (resume : option Z) (delay : Z) (w : World) (e : exn) (w1 : World) :
  download_all_symbols T read_csv delay resume w = (Raise e, w1) ->
  fst (main T read_csv odd_dir odd_file resume delay w)
  = Raise (UnboundLocalError "result_df").
Proof.
  intros E. unfold main. rewrite E. unfold try_finally.
  destruct (main_except e w1) as [o w2]. reflexivity.
Qed.

(** A negative --delay: the sleep before the second batch raises. *)
Lemma main_raises_whenever_download_raises_witness :
  fst (main (fixed_backend backend_two_pages) read_back refuse_dir refuse_file
         None (-1) fresh_world)
  = Raise (UnboundLocalError "result_df").
Proof.
  destruct (download_all_symbols (fixed_backend backend_two_pages) read_back (-1) None
              fresh_world)
    as [[r|e] w1] eqn:E; [vm_compute in E; discriminate E|].
  exact (main_raises_whenever_download_raises _ _ refuse_dir refuse_file _ _ _ _ _ E).
Defined.






(** ** The split once more *)

Lemma apply_writes_twice df w :
  disk (apply_writes (split_writes df) (apply_writes (split_writes df) w))
  = disk (apply_writes (split_writes df) w).
Proof.
  assert (Hval : forall k' v, (k', v) ∈ split_writes df ->
                   v = split_file df (fst k') (snd k')).
  { intros [e t] v Hv. by apply split_writes_spec in Hv as [-> _]. }
  assert (Hsf : split_files (disk (apply_writes (split_writes df)
                                     (apply_writes (split_writes df) w)))
                = split_files (disk (apply_writes (split_writes df) w))).
  { apply map_eq. intros k.
    rewrite !(apply_writes_lookup _ (fun k => split_file df (fst k) (snd k))) by done.
    by destruct (decide (k ∈ (split_writes df).*1)). }
  unfold apply_writes, set_disk in *. simpl in *. by rewrite Hsf.
Qed.

(** X13. For a frame whose exchanges can name directories and whose
    security types can name files, the split never raises and touches
    nothing but the tree by_exchange; without a frame, or for a frame
    without the column 'exchange' or 'securityType', it writes nothing at
    all; and it is idempotent: a second split of the same frame leaves the
    disk as the first left it. *)
Theorem split_is_idempotent
    (odd_dir : string -> DataFrame -> gmap (string * string) DataFrame
               -> option (gmap (string * string) DataFrame))
    (odd_file : string -> string -> DataFrame -> gmap (string * string) DataFrame
                -> option (gmap (string * string) DataFrame))
    (dataframe : option DataFrame) (w : World) :
  match dataframe with
  | Some df => plain_names df
  | None => True
  end ->
  exists w1 w2,
    split_symbols_by_exchange_and_type odd_dir odd_file dataframe w = (Ret tt, w1)
    /\ split_symbols_by_exchange_and_type odd_dir odd_file dataframe w1 = (Ret tt, w2)
    /\ disk w2 = disk w1
    /\ batch_files (disk w1) = batch_files (disk w)
    /\ state_file (disk w1) = state_file (disk w)
    /\ latest_file (disk w1) = latest_file (disk w)
    /\ (match dataframe with
        | Some df => "exchange" ∉ columns df \/ "securityType" ∉ columns df
        | None => True
        end -> disk w1 = disk w).
Proof.
  intros Hplain. unfold split_symbols_by_exchange_and_type.
  destruct dataframe as [df|].
  - destruct (bool_decide ("exchange" ∈ columns df)) eqn:Ee;
      destruct (bool_decide ("securityType" ∈ columns df)) eqn:Et; simpl;
      try (unfold logger; eexists _, _; repeat split; done).
    rewrite split_loops by done. eexists _, _. split; [reflexivity|].
    rewrite split_loops by done. split; [reflexivity|].
    split; [apply apply_writes_twice|]. repeat split.
    apply bool_decide_eq_true in Ee, Et. intros [H|H]; done.
  - unfold logger. eexists _, _. repeat split.
Qed.

(** Two splits of [two_exchanges] into an empty directory. *)
Lemma split_is_idempotent_witness :
  exists w1 w2,
    split_symbols_by_exchange_and_type refuse_dir refuse_file (Some two_exchanges)
      fresh_world = (Ret tt, w1)
    /\ split_symbols_by_exchange_and_type refuse_dir refuse_file (Some two_exchanges)
         w1 = (Ret tt, w2)
    /\ disk w2 = disk w1.
Proof.
  destruct (split_is_idempotent refuse_dir refuse_file (Some two_exchanges) fresh_world)
    as (w1 & w2 & E1 & E2 & Hd & _).
  - exact two_exchanges_plain.
  - exists w1, w2. split; [exact E1|]. split; [exact E2 | exact Hd].
Defined.

(** ** The consumer *)

Lemma filter_all {A} (P : A -> Prop) `{!forall x, Decision (P x)} (l : list A) :
  (forall x, x ∈ l -> P x) -> filter P l = l.
Proof.
  induction l as [|x l IH]; intros Hall; [done|].
  rewrite filter_cons, decide_True by (apply Hall; by left).
  f_equal. apply IH. intros y Hy. apply Hall. by right.
Qed.

Lemma remove_dups_constant {A} `{EqDecision A} (t : A) (l : list A) :
  l <> [] -> (forall x, x ∈ l -> x = t) -> remove_dups l = [t].
Proof.
  induction l as [|x l IH]; intros Hne Hall; [done|].
  assert (x = t) as -> by (apply Hall; by left).
  simpl. destruct (decide_rel elem_of t l) as [Hin|Hnin].
  - apply IH; [by intros ->; apply elem_of_nil in Hin|].
    intros y Hy. apply Hall. by right.
  - destruct l as [|y l]; [done|].
    exfalso. apply Hnin. assert (y = t) as -> by (apply Hall; right; by left). by left.
Qed.

Lemma groupby_constant col (df : DataFrame) t :
  rows df <> [] ->
  (forall r, r ∈ rows df -> r !! col = Some t) ->
  groupby col df = [(t, {| columns := columns df; rows := rows df |})].
Proof.
  intros Hne Hall. unfold groupby.
  rewrite (remove_dups_constant t).
  - change (merge_sort string_le [t]) with [t]. simpl.
    by rewrite (filter_all _ _ Hall).
  - destruct (rows df) as [|r rs]; [done|]. csimpl.
    rewrite (Hall r) by (by left). done.
  - intros x (r & Hr & Hx)%list_elem_of_omap. rewrite (Hall r Hr) in Hx. congruence.
Qed.

Section ConsumerFacts.
Variable read_csv : DataFrame -> option DataFrame.
Variable odd_glob : string -> list DataFrame.

Lemma process_csv_file (e t : string) (f : DataFrame)
    (redis : gmap (string * string) (list SymbolRec)) :
  read_csv f = Some f -> file_of e t f ->
  process_csv read_csv e f redis = <[(e, t) := rows f]> redis.
Proof.
  intros Hread (Hs & He & Ht & Hne & Hrows). unfold process_csv. rewrite Hread.
  rewrite !bool_decide_true by done. simpl.
  rewrite (filter_all (fun r : SymbolRec => r !! "exchange" = Some e) (rows f))
    by (intros r Hr; by apply Hrows).
  destruct (rows f) as [|r0 rs0] eqn:Er; [done|]. rewrite <- Er.
  rewrite (groupby_constant "securityType" _ t); simpl.
  - done.
  - intros Hnil. rewrite Hnil in Er. discriminate Er.
  - intros r Hr. rewrite Er in Hr. by apply Hrows.
Qed.

Lemma process_csv_other (e : string) (file : DataFrame)
    (redis : gmap (string * string) (list SymbolRec)) (k : string * string) :
  fst k <> e -> process_csv read_csv e file redis !! k = redis !! k.
Proof.
  intros Hk. unfold process_csv. destruct (read_csv file) as [df|]; [|done].
  destruct (_ || _); [done|].
  destruct (rows _) as [|r0 rs0]; [done|].
  apply (foldl_invariant
    (fun m : gmap (string * string) (list SymbolRec) => m !! k = redis !! k)); [done|].
  intros acc g _ Hacc. rewrite lookup_insert_ne; [done|].
  intros <-. by apply Hk.
Qed.

Lemma store_exchange_other (tree : gmap (string * string) DataFrame)
    (redis : gmap (string * string) (list SymbolRec)) (e : string) (k : string * string) :
  fst k <> e -> store_exchange read_csv odd_glob tree redis e !! k = redis !! k.
Proof.
  intros Hk. unfold store_exchange.
  apply (foldl_invariant
    (fun m : gmap (string * string) (list SymbolRec) => m !! k = redis !! k)); [done|].
  intros acc df _ Hacc. by rewrite process_csv_other.
Qed.
End ConsumerFacts.

(** X14. The consumer keeps to its list of exchanges: a key of an
    exchange that is not in [target_exchanges] holds after the run what it
    held before, whatever the files are and however they read. *)
Theorem consumer_writes_only_target_exchanges
    (read_csv : DataFrame -> option DataFrame)
    (odd_glob : string -> list DataFrame)
    (tree : gmap (string * string) DataFrame)
    (redis : gmap (string * string) (list SymbolRec))
    (target_exchanges : list string) (exchange sec_type : string) :
  exchange ∉ target_exchanges ->
  process_and_store_symbols read_csv odd_glob tree redis target_exchanges
    !! (exchange, sec_type)
  = redis !! (exchange, sec_type).
Proof.
  intros Hnot. unfold process_and_store_symbols.
  apply (foldl_invariant
    (fun m : gmap (string * string) (list SymbolRec) =>
       m !! (exchange, sec_type) = redis !! (exchange, sec_type))); [done|].
  intros acc e He Hacc.
  change (store_exchange read_csv odd_glob tree acc e !! (exchange, sec_type)
          = redis !! (exchange, sec_type)).
  rewrite store_exchange_other; [done|]. simpl. by intros ->.
Qed.

Lemma consumer_writes_only_target_exchanges_witness :
  process_and_store_symbols parse_back glob_nothing
    {[ ("CME", "FUTURE") := two_exchanges ]} ∅ ["NYSE"]
    !! ("CME", "FUTURE") = None.
Proof.
  rewrite (consumer_writes_only_target_exchanges _ _ _ ∅ ["NYSE"] "CME" "FUTURE").
  - reflexivity.
  - intros [H|H%elem_of_nil]%elem_of_cons; [discriminate H | done].
Defined.

Lemma foldl_insert_rows_other (L : list ((string * string) * DataFrame)) : forall acc k,
  k ∉ L.*1 ->
  foldl (fun (m : gmap (string * string) (list SymbolRec)) kv =>
           <[fst kv := rows (snd kv)]> m) acc L !! k = acc !! k.
Proof.
  induction L as [|[k0 f0] L IH]; intros acc k Hk; [done|].
  simpl. rewrite IH by (intros H; apply Hk; by right).
  apply lookup_insert_ne. intros <-. apply Hk. by left.
Qed.

Lemma foldl_insert_rows_in (L : list ((string * string) * DataFrame)) : forall acc k f,
  NoDup L.*1 -> (k, f) ∈ L ->
  foldl (fun (m : gmap (string * string) (list SymbolRec)) kv =>
           <[fst kv := rows (snd kv)]> m) acc L !! k = Some (rows f).
Proof.
  induction L as [|[k0 f0] L IH]; intros acc k f Hnd Hin; [by apply elem_of_nil in Hin|].
  apply NoDup_cons in Hnd as [Hk0 Hnd]. simpl.
  apply elem_of_cons in Hin as [[= -> ->]|Hin].
  - rewrite foldl_insert_rows_other by done. apply lookup_insert_eq.
  - by apply IH.
Qed.

Section Tree.
Variable read_csv : DataFrame -> option DataFrame.
Variable odd_glob : string -> list DataFrame.
Variable tree : gmap (string * string) DataFrame.
Hypothesis Hfiles : forall e t f,
  tree !! (e, t) = Some f -> file_of e t f /\ read_csv f = Some f.

Lemma store_exchange_files (redis : gmap (string * string) (list SymbolRec))
    (e : string) :
  plain_dir e = true -> glob_magic e = false ->
  store_exchange read_csv odd_glob tree redis e
  = foldl (fun (m : gmap (string * string) (list SymbolRec)) kv =>
             <[fst kv := rows (snd kv)]> m) redis
          (filter (fun kv : (string * string) * DataFrame =>
                     fst (fst kv) = e /\ hidden (snd (fst kv)) = false)
                  (map_to_list tree)).
Proof.
  intros Hplain Hmagic. unfold store_exchange, csv_files. rewrite Hplain, Hmagic. simpl.
  assert (Hall : forall kv, kv ∈ filter (fun kv : (string * string) * DataFrame =>
                                            fst (fst kv) = e /\ hidden (snd (fst kv)) = false)
                                   (map_to_list tree) ->
                   file_of e (snd (fst kv)) (snd kv) /\ read_csv (snd kv) = Some (snd kv)
                   /\ fst kv = (e, snd (fst kv))).
  { intros [[e' t] f] [[He _] Hin]%list_elem_of_filter. simpl in *. subst e'.
    apply elem_of_map_to_list in Hin. destruct (Hfiles _ _ _ Hin). done. }
  revert redis Hall.
  generalize (filter (fun kv : (string * string) * DataFrame =>
                        fst (fst kv) = e /\ hidden (snd (fst kv)) = false)
                (map_to_list tree)).
  induction l as [|kv l IH]; intros redis Hall; [done|].
  simpl. destruct (Hall kv ltac:(by left)) as (Hf & Hread & Hk).
  rewrite (process_csv_file _ _ _ _ _ Hread Hf), <- Hk.
  apply IH. intros kv' Hkv'. apply Hall. by right.
Qed.

Lemma store_exchange_lookup (redis : gmap (string * string) (list SymbolRec))
    (e e0 t : string) :
  plain_dir e = true -> glob_magic e = false ->
  store_exchange read_csv odd_glob tree redis e !! (e0, t)
  = if decide (e0 = e /\ hidden t = false)
    then match tree !! (e0, t) with
         | Some f => Some (rows f)
         | None => redis !! (e0, t)
         end
    else redis !! (e0, t).
Proof.
  intros Hplain Hmagic.
  destruct (decide (e0 = e)) as [->|Hne].
  2:{ rewrite store_exchange_other by done.
      rewrite decide_False; [done | by intros [? _]]. }
  rewrite store_exchange_files by done.
  destruct (decide (e = e /\ hidden t = false)) as [[_ Hvis]|Hhid].
  - destruct (tree !! (e, t)) as [f|] eqn:Ef.
    + apply foldl_insert_rows_in.
      * eapply sublist_NoDup; [apply (NoDup_fst_map_to_list tree)|].
        apply fmap_sublist, sublist_filter.
      * apply list_elem_of_filter. split; [done|]. by apply elem_of_map_to_list.
    + apply foldl_insert_rows_other.
      intros ([k f] & Hk & [_ Hin]%list_elem_of_filter)%list_elem_of_fmap.
      simpl in Hk. subst k. apply elem_of_map_to_list in Hin. congruence.
  - apply foldl_insert_rows_other.
    intros ([k f] & Hk & [[_ Hvis] _]%list_elem_of_filter)%list_elem_of_fmap.
    simpl in Hk. subst k. simpl in Hvis. by apply Hhid.
Qed.

Lemma process_and_store_lookup (targets : list string) :
  (forall e, e ∈ targets -> plain_dir e = true /\ glob_magic e = false) ->
  forall (redis : gmap (string * string) (list SymbolRec)) (e t : string),
  process_and_store_symbols read_csv odd_glob tree redis targets !! (e, t)
  = if decide (e ∈ targets /\ hidden t = false)
    then match tree !! (e, t) with
         | Some f => Some (rows f)
         | None => redis !! (e, t)
         end
    else redis !! (e, t).
Proof.
  unfold process_and_store_symbols.
  induction targets as [|x targets IH]; intros Hnames redis e t.
  - cbn [foldl]. case_decide as Hin; [|done].
    destruct Hin as [Hin _]. by apply elem_of_nil in Hin.
  - cbn [foldl]. fold (store_exchange read_csv odd_glob tree redis x).
    rewrite IH by (intros y Hy; apply Hnames; by right).
    destruct (Hnames x ltac:(by left)) as [Hplain Hmagic].
    rewrite store_exchange_lookup by done.
    destruct (decide (hidden t = false)) as [Hvis|Hhid].
    2:{ rewrite !decide_False by (by intros [_ ?]). done. }
    destruct (decide (e ∈ targets)) as [Hin|Hnin].
    + rewrite (decide_True (P := e ∈ targets /\ _)) by done.
      rewrite (decide_True (P := e ∈ x :: targets /\ _))
        by (split; [apply elem_of_cons; by right | done]).
      destruct (tree !! (e, t)); [done|]. by destruct (decide _).
    + rewrite (decide_False (P := e ∈ targets /\ _)) by (by intros [? _]).
      destruct (decide (e = x)) as [->|Hne].
      * rewrite (decide_True (P := x = x /\ _)) by done.
        rewrite (decide_True (P := x ∈ x :: targets /\ _))
          by (split; [apply elem_of_cons; by left | done]).
        done.
      * rewrite (decide_False (P := e = x /\ _)) by (by intros [? _]).
        rewrite (decide_False (P := e ∈ x :: targets /\ _)); [done|].
        intros [[?|?]%elem_of_cons _]; done.
Qed.
End Tree.

(** X15. Let every file of the tree be as the split writes it (the three
    columns, at least one row, only rows of the exchange and the type of
    its path) and read back as it was written, and let every target be the
    plain name of a directory that [glob] does not read as a pattern.
    Then the consumer stores under the key of each (exchange, type) pair
    of a target exchange exactly the rows of the pair's file, unless the
    name of the file starts with a dot, which [glob] does not list; it
    leaves every other key as it was. *)
Theorem consumer_stores_each_file
    (read_csv : DataFrame -> option DataFrame)
    (odd_glob : string -> list DataFrame)
    (tree : gmap (string * string) DataFrame)
    (redis : gmap (string * string) (list SymbolRec))
    (target_exchanges : list string) (exchange sec_type : string) :
  (forall e t f, tree !! (e, t) = Some f -> file_of e t f /\ read_csv f = Some f) ->
  (forall e, e ∈ target_exchanges -> plain_dir e = true /\ glob_magic e = false) ->
  process_and_store_symbols read_csv odd_glob tree redis target_exchanges
    !! (exchange, sec_type)
  = if decide (exchange ∈ target_exchanges /\ hidden sec_type = false)
    then match tree !! (exchange, sec_type) with
         | Some f => Some (rows f)
         | None => redis !! (exchange, sec_type)
         end
    else redis !! (exchange, sec_type).
Proof. intros Hfiles Hnames. by apply process_and_store_lookup. Qed.

Lemma consumer_stores_each_file_witness :
  process_and_store_symbols parse_back glob_nothing
    {[ ("NYSE", "EQUITY") := DataFrame_of [symbol_rec "A" "NYSE" "EQUITY"] ]}
    ∅ ["NYSE"] !! ("NYSE", "EQUITY")
  = Some [symbol_rec "A" "NYSE" "EQUITY"].
Proof.
  rewrite (consumer_stores_each_file parse_back glob_nothing _ ∅ ["NYSE"] "NYSE" "EQUITY").
  - reflexivity.
  - intros e t f Hf. apply lookup_singleton_Some in Hf as [[= <- <-] <-].
    split; [|reflexivity].
    unfold file_of. repeat split; try compute_done.
    all: by apply list_elem_of_singleton in H as ->.
  - intros e He. apply list_elem_of_singleton in He as ->. by split.
Defined.

(** X16. From the merged frame to the store.  Take a frame with the three
    columns whose exchanges and security types are plain names, split it
    into an empty tree, and let every file of the tree read back as it was
    written.  The consumer run on that tree, with targets that are plain
    names and no patterns, then stores for every target exchange and every
    security type that occurs with it, and whose file name does not start
    with a dot, exactly the rows of the frame with that exchange and that
    type, in the order of the frame. *)
Theorem split_then_consumer
    (odd_dir : string -> DataFrame -> gmap (string * string) DataFrame
               -> option (gmap (string * string) DataFrame))
    (odd_file : string -> string -> DataFrame -> gmap (string * string) DataFrame
                -> option (gmap (string * string) DataFrame))
    (read_csv : DataFrame -> option DataFrame)
    (odd_glob : string -> list DataFrame)
    (df : DataFrame) (w w' : World)
    (redis : gmap (string * string) (list SymbolRec))
    (target_exchanges : list string) (exchange sec_type : string) :
  "symbol" ∈ columns df -> "exchange" ∈ columns df -> "securityType" ∈ columns df ->
  plain_names df ->
  split_files (disk w) = ∅ ->
  split_symbols_by_exchange_and_type odd_dir odd_file (Some df) w = (Ret tt, w') ->
  (forall e t, read_csv (split_file df e t) = Some (split_file df e t)) ->
  (forall e, e ∈ target_exchanges -> plain_dir e = true /\ glob_magic e = false) ->
  exchange ∈ target_exchanges ->
  hidden sec_type = false ->
  (exists r, r ∈ rows df /\ r !! "exchange" = Some exchange
             /\ r !! "securityType" = Some sec_type) ->
  process_and_store_symbols read_csv odd_glob (split_files (disk w')) redis
    target_exchanges !! (exchange, sec_type)
  = Some (filter (fun r : SymbolRec => r !! "securityType" = Some sec_type)
            (filter (fun r : SymbolRec => r !! "exchange" = Some exchange) (rows df))).
Proof.
  intros Hs He Ht Hplain Hempty Hsplit Hread Hnames Htarget Hvis Hocc.
  rewrite split_plain in Hsplit by done. injection Hsplit as <-.
  assert (Hval : forall k' v, (k', v) ∈ split_writes df ->
                   v = split_file df (fst k') (snd k')).
  { intros [e t] v Hv. by apply split_writes_spec in Hv as [-> _]. }
  assert (Htree : forall e t,
            split_files (disk (apply_writes (split_writes df) w)) !! (e, t)
            = if decide ((e, t) ∈ (split_writes df).*1)
              then Some (split_file df e t) else None).
  { intros e t.
    rewrite (apply_writes_lookup _ (fun k => split_file df (fst k) (snd k))) by done.
    rewrite Hempty. by destruct (decide _). }
  assert (Hin : forall e t, (e, t) ∈ (split_writes df).*1 <->
            exists r, r ∈ rows df /\ r !! "exchange" = Some e
                      /\ r !! "securityType" = Some t).
  { intros e t. rewrite list_elem_of_fmap. split.
    - intros ([[e' t'] v] & [= -> ->] & Hv). by apply split_writes_spec in Hv as [_ ?].
    - intros Hr. exists ((e, t), split_file df e t). split; [done|].
      by apply split_writes_spec. }
  rewrite process_and_store_lookup; [| |exact Hnames].
  - rewrite decide_True by done. rewrite Htree.
    rewrite decide_True by (by apply Hin). reflexivity.
  - intros e t f. rewrite Htree. destruct (decide _) as [Hk|]; [|done].
    intros [= <-]. split; [|apply Hread].
    apply Hin in Hk as (r & Hr & Hre & Hrt).
    unfold file_of, split_file. simpl. repeat split; try done.
    + intros Hnil.
      assert (Hr' : r ∈ filter (fun r : SymbolRec => r !! "securityType" = Some t)
                      (filter (fun r : SymbolRec => r !! "exchange" = Some e) (rows df)))
        by (rewrite !list_elem_of_filter; done).
      rewrite Hnil in Hr'. by apply elem_of_nil in Hr'.
    + by apply list_elem_of_filter in H as [_ [? _]%list_elem_of_filter].
    + by apply list_elem_of_filter in H as [? _].
Qed.

Lemma split_then_consumer_witness :
  process_and_store_symbols parse_back glob_nothing
    (split_files (disk (snd (split_symbols_by_exchange_and_type refuse_dir refuse_file
                               (Some two_exchanges) fresh_world))))
    ∅ ["NYSE"; "CME"] !! ("NYSE", "EQUITY")
  = Some [symbol_rec "A" "NYSE" "EQUITY"].
Proof.
  rewrite (split_then_consumer refuse_dir refuse_file parse_back glob_nothing
             two_exchanges fresh_world
             (snd (split_symbols_by_exchange_and_type refuse_dir refuse_file
                     (Some two_exchanges) fresh_world))
             ∅ ["NYSE"; "CME"] "NYSE" "EQUITY").
  - vm_compute. reflexivity.
  - compute_done.
  - compute_done.
  - compute_done.
  - exact two_exchanges_plain.
  - reflexivity.
  - vm_compute. reflexivity.
  - reflexivity.
  - intros e [->|He]%elem_of_cons; [by split|].
    apply list_elem_of_singleton in He as ->. by split.
  - by left.
  - reflexivity.
  - exists (symbol_rec "A" "NYSE" "EQUITY"). split; [by left|]. split; reflexivity.
Defined.
